(** * mes: the scroll export driver of [main.go]

  A shallow embedding of the export path of [main.go]: [search],
  [scroll], [parseResult], [flushToFile] and [clearScroll], with the
  Elasticsearch client and the output [io.Writer] as explicit
  environments.  The driver is recursive in the source ([parseResult]
  calls [scroll], which calls [parseResult] on the next page), so the
  embedding is a fuelled mutual fixpoint and the outcome of a call says
  how it ended. *)

From Stdlib Require Import ZArith Lia DecimalString.
From stdpp Require Import base gmap strings list.

Local Open Scope Z_scope.

(** ** Go numbers *)

Module Go.

(** [uint64] arithmetic wraps around. *)
Definition wrap64 (z : Z) : Z := z mod 2 ^ 64.

(** [int(x)] for [x : uint64] on a 64-bit platform: two's complement. *)
Definition int_of_uint64 (z : Z) : Z :=
  if z <? 2 ^ 63 then z else z - 2 ^ 64.

(** [uint64(x)] for [x : int]. *)
Definition uint64_of_int (z : Z) : Z := z mod 2 ^ 64.

End Go.

Abbreviation bytes := (list Byte.byte).

Definition newline : Byte.byte := Byte.x0a.

(** [const FLUSHBUFFER = 1000] *)
Definition FLUSHBUFFER : nat := 1000.

(** [json.Marshal] on a [_source] value: [Some j] for the encoding, [None]
    when it returns an error (and a nil slice). *)
Class Marshaler (source : Type) := Marshal : source -> option bytes.

(** ** The output stream ([opts.output], an [io.Writer]) *)

Record writer := {
  content : bytes;                  (* what reached the stream *)
  faults : list (option nat);
    (* the coming Write calls: [None] succeeds, [Some n] returns an error
       after the first [n] bytes (at most) of the slice reached the stream *)
  attempts : list (bytes * bool)    (* every Write call and whether it succeeded *)
}.

(** [w.Write(b)]: the new stream and the error, if any. A call that
    returns an error may have written a prefix of [b] ([0 <= n <= len(b)]
    in [io.Writer]'s contract). *)
Definition Write (w : writer) (b : bytes) : writer * option string :=
  match faults w with
  | Some n :: fs =>
      ({| content := content w ++ take n b; faults := fs;
          attempts := attempts w ++ [(b, false)] |}, Some "write failed"%string)
  | _ =>
      ({| content := content w ++ b; faults := tail (faults w);
          attempts := attempts w ++ [(b, true)] |}, None)
  end.

Definition newWriter (fs : list (option nat)) : writer :=
  {| content := []; faults := fs; attempts := [] |}.

(** How a call of the program ends. [Fatal] is [log.Fatalf] (the process
    exits with the message), [Panic] a run-time panic of the Go program. *)
Inductive outcome :=
| Done
| Fatal (msg : string)
| Panic
| OutOfFuel.

Section Driver.

Context {source : Type} `{!Marshaler source}.

(** ** Search results *)

Record hit := { Source : source }.

(** [type hits struct { Total uint64; Hits []hit }] *)
Record hits := { Total : Z; Hits_ : list hit }.

(** [type result struct { ScrollID string; Took float64; Hits hits }];
    [Took] is never read. *)
Record result := { ScrollID : string; Hits : hits }.

(** The body of a response, by what the JSON decoder makes of it. *)
Inductive body :=
| NotJSON
| ErrorDoc (ty reason : string)
| ResultDoc (r : result).

(** [esapi.Response] *)
Record Response := { StatusCode : Z; Body : body }.

(** [func (r *Response) IsError() bool { return r.StatusCode > 299 }] *)
Definition IsError (r : Response) : bool := 299 <? StatusCode r.

(** [json.NewDecoder(response.Body).Decode(&r)] into a [result]: fields
    the object lacks keep their zero value. *)
Definition decode_result (b : body) : option result :=
  match b with
  | NotJSON => None
  | ErrorDoc _ _ =>
      Some {| ScrollID := ""; Hits := {| Total := 0; Hits_ := [] |} |}
  | ResultDoc r => Some r
  end.

(** What a client call returns: [(res *esapi.Response, err error)]. *)
Record fetch := { res : option Response; err : option string }.

(** ** The cluster behind the client

    The responses the coming calls receive, in order, and the response
    of every call after those. *)
Record cluster := { script : list fetch; exhausted : fetch }.

Definition next_fetch (c : cluster) : fetch * cluster :=
  match script c with
  | [] => (exhausted c, c)
  | f :: rest => (f, {| script := rest; exhausted := exhausted c |})
  end.

(** Requests sent to the cluster, with what came back. *)
Inductive event :=
| EvSearch (f : fetch)
| EvScroll (scrollID : string) (f : fetch)
| EvClearScroll (ids : string).

(** ** Program state: [App], the package variables it uses, and the
    environment *)

Record App := {
  maxResult : Z;               (* opts.maxResult, an int *)
  output : writer;             (* opts.output *)
  totalLines : Z;              (* package variable, uint64 *)
  hitResult : list hit;        (* package variable *)
  queryResult : Z;             (* uint64 *)
  numResult : Z;               (* uint64 *)
  scrollIDs : list string;
  sIDs : gset string;
  esClient : cluster;
  requests : list event;       (* log of the client calls made *)
  flushed : list (list hit)    (* log of the arguments of flushToFile *)
}.

Definition set_output (w : writer) (t : App) : App :=
  {| maxResult := maxResult t; output := w; totalLines := totalLines t;
     hitResult := hitResult t; queryResult := queryResult t;
     numResult := numResult t; scrollIDs := scrollIDs t; sIDs := sIDs t;
     esClient := esClient t; requests := requests t; flushed := flushed t |}.

Definition set_totalLines (n : Z) (t : App) : App :=
  {| maxResult := maxResult t; output := output t; totalLines := n;
     hitResult := hitResult t; queryResult := queryResult t;
     numResult := numResult t; scrollIDs := scrollIDs t; sIDs := sIDs t;
     esClient := esClient t; requests := requests t; flushed := flushed t |}.

Definition set_hitResult (l : list hit) (t : App) : App :=
  {| maxResult := maxResult t; output := output t; totalLines := totalLines t;
     hitResult := l; queryResult := queryResult t;
     numResult := numResult t; scrollIDs := scrollIDs t; sIDs := sIDs t;
     esClient := esClient t; requests := requests t; flushed := flushed t |}.

Definition set_queryResult (n : Z) (t : App) : App :=
  {| maxResult := maxResult t; output := output t; totalLines := totalLines t;
     hitResult := hitResult t; queryResult := n;
     numResult := numResult t; scrollIDs := scrollIDs t; sIDs := sIDs t;
     esClient := esClient t; requests := requests t; flushed := flushed t |}.

Definition set_numResult (n : Z) (t : App) : App :=
  {| maxResult := maxResult t; output := output t; totalLines := totalLines t;
     hitResult := hitResult t; queryResult := queryResult t;
     numResult := n; scrollIDs := scrollIDs t; sIDs := sIDs t;
     esClient := esClient t; requests := requests t; flushed := flushed t |}.

Definition set_sIDs (s : gset string) (t : App) : App :=
  {| maxResult := maxResult t; output := output t; totalLines := totalLines t;
     hitResult := hitResult t; queryResult := queryResult t;
     numResult := numResult t; scrollIDs := scrollIDs t; sIDs := s;
     esClient := esClient t; requests := requests t; flushed := flushed t |}.

Definition set_flushed (l : list (list hit)) (t : App) : App :=
  {| maxResult := maxResult t; output := output t; totalLines := totalLines t;
     hitResult := hitResult t; queryResult := queryResult t;
     numResult := numResult t; scrollIDs := scrollIDs t; sIDs := sIDs t;
     esClient := esClient t; requests := requests t; flushed := l |}.

(** The state after the cluster, now [c], answered the request [e]. *)
Definition answered (c : cluster) (e : event) (t : App) : App :=
  {| maxResult := maxResult t; output := output t;
     totalLines := totalLines t; hitResult := hitResult t;
     queryResult := queryResult t; numResult := numResult t;
     scrollIDs := scrollIDs t; sIDs := sIDs t;
     esClient := c; requests := requests t ++ [e];
     flushed := flushed t |}.

(** A client call: the cluster answers and the call is logged. *)
Definition call_cluster (mk : fetch -> event) (t : App) : fetch * App :=
  let '(f, c) := next_fetch (esClient t) in
  (f, answered c (mk f) t).

(** The state [main] builds: [sIDs: map[string]struct{}{}], everything
    else at its zero value. *)
Definition newApp (m : Z) (w : writer) (c : cluster) : App :=
  {| maxResult := m; output := w; totalLines := 0; hitResult := [];
     queryResult := 0; numResult := 0; scrollIDs := []; sIDs := ∅;
     esClient := c; requests := []; flushed := [] |}.

(** ** [flushToFile] *)

(** One record of the buffer: [j, _ := json.Marshal(v.Source)] then
    [buf.Write(j)] and [buf.WriteByte('\n')]. *)
Definition line_of (v : hit) : bytes :=
  match Marshal (Source v) with
  | Some j => j ++ [newline]
  | None => [newline]
  end.

Definition encode (hs : list hit) : bytes := flat_map line_of hs.

(** The result of [t.opts.output.Write] is dropped. *)
Definition flushToFile (t : App) (hs : list hit) : App :=
  let buf := encode hs in
  let '(w, _) := Write (output t) buf in
  set_flushed (flushed t ++ [hs]) (set_output w t).

(** ** [parseResult] *)

(** [t.flushToFile(hitResult); hitResult = []hit{}] *)
Definition flushAll (t : App) : App :=
  set_hitResult [] (flushToFile t (hitResult t)).

(** [totalLines++; hitResult = append(hitResult, v)] *)
Definition appendHit (v : hit) (t : App) : App :=
  let t := set_totalLines (Go.wrap64 (totalLines t + 1)) t in
  set_hitResult (hitResult t ++ [v]) t.

(** [if len(hitResult) == FLUSHBUFFER { ... }] *)
Definition flushIfFull (t : App) : App :=
  if Nat.eqb (length (hitResult t)) FLUSHBUFFER then flushAll t else t.

(** [t.opts.maxResult > 0 && int(totalLines) == t.opts.maxResult] *)
Definition limitHit (t : App) : bool :=
  (0 <? maxResult t) && (Go.int_of_uint64 (totalLines t) =? maxResult t).

(** [for _, v := range r.Hits.Hits { ... }], lines 335-350; the first
    branch is the [break]. *)
Fixpoint rangeHits (t : App) (vs : list hit) : App :=
  match vs with
  | [] => t
  | v :: vs' =>
      let t := flushIfFull (appendHit v t) in
      if limitHit t then flushAll t else rangeHits t vs'
  end.

(** [if _, ok := t.sIDs[id]; !ok { t.sIDs[id] = struct{}{} }] *)
Definition noteScrollID (id : string) (t : App) : App :=
  if decide (id ∈ sIDs t) then t else set_sIDs ({[id]} ∪ sIDs t) t.

(** Lines 321-327. *)
Definition setTargets (r : result) (t : App) : App :=
  let t := set_queryResult (Total (Hits r)) t in
  if 0 <? maxResult t
  then set_numResult (Go.uint64_of_int (maxResult t)) t
  else set_numResult (queryResult t) t.

(** Lines 355-358. *)
Definition flushRest (t : App) : App :=
  if Nat.ltb 0 (length (hitResult t)) then flushAll t else t.

Definition fatal_cluster_error (ty reason : string) : string :=
  ("[status] " ++ ty ++ ": " ++ reason)%string.

Fixpoint parseResult (fuel : nat) (t : App) (response : Response)
  : outcome * App :=
  match fuel with
  | O => (OutOfFuel, t)
  | S fuel =>
      if IsError response then
        match Body response with
        | NotJSON => (Fatal "Error parsing the response body", t)
        | ErrorDoc ty reason => (Fatal (fatal_cluster_error ty reason), t)
        | ResultDoc _ => (Panic, t)   (* e["error"] is nil: the type assertion panics *)
        end
      else
        match decode_result (Body response) with
        | None => (Fatal "Error parsing the response body", t)
        | Some r =>
            let t := setTargets r t in
            if (0 <? numResult t) && Nat.ltb 0 (length (Hits_ (Hits r)))
            then
              match pageLoop fuel t r with
              | (Done, t) => (Done, flushRest t)
              | stopped => stopped
              end
            else (Done, t)
        end
  end

(** [for totalLines != t.numResult { ... }], lines 330-353, for the page
    [r] of the enclosing [parseResult]. *)
with pageLoop (fuel : nat) (t : App) (r : result) : outcome * App :=
  match fuel with
  | O => (OutOfFuel, t)
  | S fuel =>
      if totalLines t =? numResult t then (Done, t)
      else
        let t := noteScrollID (ScrollID r) t in
        let t := rangeHits t (Hits_ (Hits r)) in
        match scroll fuel t (ScrollID r) with
        | (Done, t) => pageLoop fuel t r
        | stopped => stopped
        end
  end

(** [func (t *App) scroll(scrollID string)]: [defer res.Body.Close()]
    evaluates [res.Body] before [err] is looked at. *)
with scroll (fuel : nat) (t : App) (scrollID : string) : outcome * App :=
  match fuel with
  | O => (OutOfFuel, t)
  | S fuel =>
      let '(f, t) := call_cluster (EvScroll scrollID) t in
      match res f with
      | None => (Panic, t)
      | Some response =>
          match err f with
          | Some e => (Fatal ("Error getting scroll response: " ++ e), t)
          | None => parseResult fuel t response
          end
      end
  end.

(** [func (t *App) search()] *)
Definition search (fuel : nat) (t : App) : outcome * App :=
  let '(f, t) := call_cluster EvSearch t in
  match res f with
  | None => (Panic, t)
  | Some response =>
      match err f with
      | Some e => (Fatal ("Error getting search response: " ++ e), t)
      | None => parseResult fuel t response
      end
  end.

(** [esapi]'s [ClearScroll.WithScrollID(ids...)] only builds an option for
    a request; a request is sent when [ClearScroll] itself is called with
    its options. *)
Definition WithScrollID (ids : string) : list event -> list event :=
  fun sent => sent ++ [EvClearScroll ids].

Definition join_comma (l : list string) : string := String.concat "," l.

(** [func (t *App) clearScroll()]: the option is built from
    [t.scrollIDs] and dropped. *)
Definition clearScroll (t : App) : App :=
  let _ := WithScrollID (join_comma (scrollIDs t)) in
  t.

(** [func (t *App) run()], from [t.search()] on; the client, the index
    check and the query body are set up before. *)
Definition run (fuel : nat) (t : App) : outcome * App :=
  match search fuel t with
  | (Done, t) => (Done, clearScroll t)
  | stopped => stopped
  end.

End Driver.

Arguments hit : clear implicits.
Arguments hits : clear implicits.
Arguments result : clear implicits.
Arguments body : clear implicits.
Arguments Response : clear implicits.
Arguments fetch : clear implicits.
Arguments cluster : clear implicits.
Arguments event : clear implicits.
Arguments App : clear implicits.

Arguments Go.wrap64 : simpl never.
Arguments Go.int_of_uint64 : simpl never.
Arguments Go.uint64_of_int : simpl never.

(** ** Documents used to run the driver on concrete inputs

    [Num n] is a JSON number; [Chan] stands for a Go value that
    [json.Marshal] rejects (a channel, a function, a NaN). *)
Inductive doc := Num (n : nat) | Chan.

#[export] Instance doc_Marshal : Marshaler doc := fun d =>
  match d with
  | Num n =>
      Some (String.list_byte_of_string
              (DecimalString.NilZero.string_of_uint (Nat.to_uint n)))
  | Chan => None
  end.

(** The inverse of [doc_Marshal] on one line of output. *)
Definition doc_Unmarshal (b : bytes) : option doc :=
  match b with
  | [] => None
  | _ =>
      match DecimalString.NilZero.uint_of_string (String.string_of_list_byte b) with
      | Some u => Some (Num (Nat.of_uint u))
      | None => None
      end
  end.

(** The lines of a newline-terminated stream. *)
Fixpoint split_lines_from (cur : bytes) (b : bytes) : list bytes :=
  match b with
  | [] => match cur with [] => [] | _ => [cur] end
  | c :: b' =>
      if Byte.eqb c newline then cur :: split_lines_from [] b'
      else split_lines_from (cur ++ [c]) b'
  end.

Definition split_lines (b : bytes) : list bytes := split_lines_from [] b.

Definition hit_of (n : nat) : hit doc := {| Source := Num n |}.

(** A 200 response carrying the search result [r], and the client call
    that returns it. *)
Definition ok_response {source} (r : result source) : Response source :=
  {| StatusCode := 200; Body := ResultDoc r |}.

Definition ok {source} (r : result source) : fetch source :=
  {| res := Some (ok_response r); err := None |}.

Definition page {source} (sid : string) (total : Z) (hs : list (hit source))
  : fetch source :=
  ok {| ScrollID := sid; Hits := {| Total := total; Hits_ := hs |} |}.

(** The records of a sequence of pages, in order. *)
Definition records {source} (ps : list (result source)) : list (hit source) :=
  concat (map (fun p => Hits_ (Hits p)) ps).

(** The continuation requests that walk the pages [ps], answered by [fs]. *)
Definition scrolls {source} (ps : list (result source))
  (fs : list (fetch source)) : list (event source) :=
  zip_with EvScroll (map ScrollID ps) fs.

(** A transport failure: no response, an error. *)
Definition transport_error {source} (e : string) : fetch source :=
  {| res := None; err := Some e |}.

(** The total a logged request's response reports, when it decodes. *)
Definition reported {source} (e : event source) : option Z :=
  match e with
  | EvSearch f | EvScroll _ f =>
      match res f with
      | Some response =>
          match decode_result (Body response) with
          | Some r => Some (Total (Hits r))
          | None => None
          end
      | None => None
      end
  | EvClearScroll _ => None
  end.

Definition is_release {source} (e : event source) : bool :=
  match e with EvClearScroll _ => true | _ => false end.

(** The records handed to the sink or still buffered, in order. *)
Definition emitted {source} (t : App source) : list (hit source) :=
  concat (flushed t) ++ hitResult t.

(** The state with the output stream put aside. *)
Definition forget_output {source} (t : App source) : App source :=
  set_output (newWriter []) t.

(** Two states that differ at most in the output stream. *)
Definition same_but_output {source} (t1 t2 : App source) : Prop :=
  maxResult t1 = maxResult t2 /\ totalLines t1 = totalLines t2 /\
  hitResult t1 = hitResult t2 /\ queryResult t1 = queryResult t2 /\
  numResult t1 = numResult t2 /\ scrollIDs t1 = scrollIDs t2 /\
  sIDs t1 = sIDs t2 /\ esClient t1 = esClient t2 /\
  requests t1 = requests t2 /\ flushed t1 = flushed t2.

(** A property of the state that every primitive step of the driver
    keeps. *)
Record kept {source} `{!Marshaler source} (I : App source -> Prop) : Prop := {
  kept_flushAll : forall t, I t -> I (flushAll t);
  kept_appendHit : forall t v, I t -> I (appendHit v t);
  kept_queryResult : forall t n, I t -> I (set_queryResult n t);
  kept_numResult : forall t n, I t -> I (set_numResult n t);
  kept_sIDs : forall t s, I t -> I (set_sIDs s t);
  kept_call : forall t mk,
    (forall f, is_release (mk f) = false) -> I t -> I (snd (call_cluster mk t))
}.

(** The fields that only [setTargets], [noteScrollID] and the client calls
    write. *)
Definition same_setup {source} (t t' : App source) : Prop :=
  maxResult t' = maxResult t /\ queryResult t' = queryResult t /\
  numResult t' = numResult t /\ scrollIDs t' = scrollIDs t /\
  sIDs t' = sIDs t /\ esClient t' = esClient t /\ requests t' = requests t.

(** A flush of a full buffer. *)
Definition full {source} (c : list (hit source)) : Prop :=
  length c = FLUSHBUFFER.

(** Between two records the buffer is below the threshold and every flush
    so far was of a full buffer. *)
Definition buffering {source} (t : App source) : Prop :=
  (length (hitResult t) < FLUSHBUFFER)%nat /\ Forall full (flushed t).

(** The flushes of a finished run: full buffers, then at most one flush of
    what was left. *)
Definition shaped {source} (fl : list (list (hit source))) : Prop :=
  exists whole rest,
    fl = whole ++ rest /\ Forall full whole /\
    (rest = [] \/
     exists c, rest = [c] /\ (0 < length c < FLUSHBUFFER)%nat).

Definition settled {source} (t : App source) : Prop :=
  hitResult t = [] /\ shaped (flushed t).

(** [totalLines] counts the records taken so far, modulo 2^64. *)
Definition counted {source} (t : App source) : Prop :=
  totalLines t = Go.wrap64 (Z.of_nat (length (emitted t))).

(** [parseResult] did not enter its loop on the page it decoded. *)
Definition skipped {source} (response : Response source)
  (t t' : App source) : Prop :=
  exists r, decode_result (Body response) = Some r /\
    t' = setTargets r t /\
    (0 <? numResult t') && Nat.ltb 0 (length (Hits_ (Hits r))) = false.

(** The total of the latest response among the logged requests [es], or
    [q] when there is none. *)
Definition latest_total {source} (q : Z) (es : list (event source))
  : option Z :=
  match last es with
  | None => Some q
  | Some e => reported e
  end.

(** With [c] records taken, the limit [m] is met in the last of the pages
    [r :: ps] and not before. *)
Fixpoint met_in_last {source} (c m : Z) (r : result source)
  (ps : list (result source)) : Prop :=
  match ps with
  | [] => c < m <= c + Z.of_nat (length (Hits_ (Hits r)))
  | r2 :: ps' =>
      Hits_ (Hits r) <> [] /\
      c + Z.of_nat (length (Hits_ (Hits r))) < m /\
      met_in_last (c + Z.of_nat (length (Hits_ (Hits r)))) m r2 ps'
  end.

(** The stream holds the encoding of every flush, in order: no write has
    failed. *)
Definition faithful {source} `{!Marshaler source} (t : App source) : Prop :=
  faults (output t) = [] /\
  content (output t) = encode (concat (flushed t)).

(** The first [n] records of the pages lie in the last of the pages
    [front ++ [lastp]], which the cluster serves non-empty. *)
Definition served_until {source} (n : Z) (front : list (result source))
  (lastp : result source) : Prop :=
  Forall (fun p => Hits_ (Hits p) <> []) front /\
  Z.of_nat (length (records front)) < n <=
    Z.of_nat (length (records (front ++ [lastp]))).

(** The requests of a run that walks [pages] and gets [fin] for its last
    continuation request. *)
Definition walk {source} (pages : list (result source)) (fin : fetch source)
  : list (event source) :=
  match pages with
  | [] => []
  | r :: ps => EvSearch (ok r) :: scrolls (r :: ps) (map ok ps ++ [fin])
  end.

(** ** Concrete clusters *)

Definition short_first : result doc :=
  {| ScrollID := "s1";
     Hits := {| Total := 5; Hits_ := [hit_of 1; hit_of 2] |} |}.

Definition short_empty : result doc :=
  {| ScrollID := "s1"; Hits := {| Total := 5; Hits_ := [] |} |}.

(** Two records of five announced, then empty pages for ever. *)
Definition short_cluster : cluster doc :=
  {| script := [ok short_first]; exhausted := ok short_empty |}.

(** What the loop of [short_cluster]'s first page keeps true. *)
Definition short_stuck (t : App doc) : Prop :=
  maxResult t = 0 /\ numResult t = 5 /\
  (0 <= totalLines t < 2 ^ 64 /\ totalLines t mod 2 = 0) /\
  esClient t = {| script := []; exhausted := ok short_empty |}.

(** Three records in one page, then empty pages. *)
Definition three_docs : cluster doc :=
  {| script := [page "s1" 3 [hit_of 1; hit_of 2; hit_of 3]];
     exhausted := page "s1" 3 [] |}.

(** Two pages, with scroll ids [s1] and [s2], then empty pages. *)
Definition two_pages : cluster doc :=
  {| script := [page "s1" 3 [hit_of 1; hit_of 2]; page "s2" 3 [hit_of 3]];
     exhausted := page "s3" 3 [] |}.

(** The second page reports another total than the first. *)
Definition changing_total : cluster doc :=
  {| script := [page "s1" 3 [hit_of 1; hit_of 2]; page "s2" 2 [hit_of 3]];
     exhausted := page "s3" 2 [] |}.

(** A first page without records that announces five. *)
Definition empty_first : cluster doc :=
  {| script := [page "s1" 5 []]; exhausted := page "s1" 5 [] |}.

(** One page of [n] records, then empty pages. *)
Definition one_page (n : nat) : cluster doc :=
  {| script := [page "s1" (Z.of_nat n) (map hit_of (seq 0 n))];
     exhausted := page "s1" (Z.of_nat n) [] |}.

(** The client fails to reach the cluster. *)
Definition unreachable : cluster doc :=
  {| script := []; exhausted := transport_error "connection refused" |}.

(** The page [r] in hand: its scroll id is noted and its records are
    ranged over. *)
Definition pass {source} `{!Marshaler source} (r : result source)
  (t : App source) : App source :=
  rangeHits (noteScrollID (ScrollID r) t) (Hits_ (Hits r)).

(** ** Further properties of the driver: what they are about *)

(** The buffer is below the threshold and no flush took more than a full
    buffer. *)
Definition bounded_buffer {source} (t : App source) : Prop :=
  (length (hitResult t) < FLUSHBUFFER)%nat /\
  Forall (fun c => (length c <= FLUSHBUFFER)%nat) (flushed t).

(** With the limit [N]: the counter is the number of records taken, at
    most [N], and the loop's target is [N] once a page was decoded. *)
Definition within_limit {source} (N : Z) (t : App source) : Prop :=
  maxResult t = N /\
  totalLines t = Z.of_nat (length (emitted t)) /\
  totalLines t <= N /\
  (numResult t = N \/ totalLines t = numResult t).

(** What the stream's log says: one write per flush, of that flush's
    encoding. *)
Definition logged {source} `{!Marshaler source} (t : App source) : Prop :=
  map fst (attempts (output t)) = map encode (flushed t).

(** No coming write fails, and the stream holds the encoding of the
    records flushed so far. *)
Definition unfailing {source} `{!Marshaler source} (t : App source) : Prop :=
  Forall (fun f => f = None) (faults (output t)) /\
  content (output t) = encode (concat (flushed t)).

(** A property kept by every turn of the driver: decoding a page, ranging
    over a page while the target is not met, the flush at the end, and a
    client call. *)
Record kept_by_turns {source} `{!Marshaler source}
  (I : App source -> Prop) : Prop := {
  turn_setTargets : forall t r, I t -> I (setTargets r t);
  turn_pass : forall t r, I t -> totalLines t <> numResult t -> I (pass r t);
  turn_flushRest : forall t, I t -> I (flushRest t);
  turn_answered : forall t c e, is_release e = false -> I t -> I (answered c e t)
}.

(** A client call that returned a success response that decodes. *)
Definition good_fetch {source} (f : fetch source) : Prop :=
  exists response r,
    res f = Some response /\ err f = None /\
    IsError response = false /\ decode_result (Body response) = Some r.

Definition good_scroll {source} (e : event source) : Prop :=
  match e with
  | EvScroll _ f => good_fetch f
  | _ => False
  end.

(** The scroll ids the continuation requests carried. *)
Definition scroll_ids {source} (es : list (event source)) : list string :=
  omap (fun e => match e with EvScroll id _ => Some id | _ => None end) es.

(** What a record adds to a line of output before the newline. *)
Definition payload {source} `{!Marshaler source} (v : hit source) : bytes :=
  default [] (Marshal (Source v)).

(** Every record a client call returns has the property [P]. *)
Definition fetch_serves {source} (P : hit source -> Prop) (f : fetch source)
  : Prop :=
  forall response r,
    res f = Some response -> decode_result (Body response) = Some r ->
    Forall P (Hits_ (Hits r)).

(** Every record the cluster will ever return has the property [P]. *)
Definition cluster_serves {source} (P : hit source -> Prop)
  (c : cluster source) : Prop :=
  Forall (fetch_serves P) (script c) /\ fetch_serves P (exhausted c).

(** ** Start-up: [main], [getClient], [checkIndex], [buildQuery] *)

Module Setup.

(** [strings.Split(s, sep)] for a separator of one byte. *)
Fixpoint Split (s : string) (sep : Ascii.ascii) : list string :=
  match s with
  | EmptyString => [EmptyString]
  | String c s' =>
      if Ascii.eqb c sep then EmptyString :: Split s' sep
      else match Split s' sep with
           | p :: ps => String c p :: ps
           | [] => [String c EmptyString]
           end
  end.

(** [strings.Contains(s, sep)] for a separator of one byte. *)
Fixpoint Contains (s : string) (sep : Ascii.ascii) : bool :=
  match s with
  | EmptyString => false
  | String c s' => Ascii.eqb c sep || Contains s' sep
  end.

(** [strings.Join(l, sep)] for a separator of one byte. *)
Definition Join (l : list string) (sep : Ascii.ascii) : string :=
  String.concat (String sep EmptyString) l.

(** The bytes [','] and [':']. *)
Definition comma : Ascii.ascii := Ascii.ascii_of_nat 44.
Definition colon : Ascii.ascii := Ascii.ascii_of_nat 58.

(** The command-line flags, after [flag.Parse()]. *)
Record flags := {
  flag_q : string;
  flag_r : bool;
  flag_u : string;
  flag_a : string;
  flag_i : string;
  flag_d : string;
  flag_f : string;
  flag_p : bool;
  flag_o : string;
  flag_m : Z;
  flag_s : Z
}.

(** [type options struct]; [scroll] is a constant and [sort] is never
    set. *)
Record options := {
  print : bool;
  outputFile : string;
  output : writer;
  address : list string;
  index : list string;
  docType : string;
  size : Z;
  maxResult : Z;
  fields : list string;
  q : string;
  rawQuery : bool;
  queryBody : bytes;
  username : string;
  password : string
}.

(** Lines 104-110: the credentials taken from [-a]. *)
Definition parseAuth (auth : string) : string * string :=
  if negb (String.eqb auth "") && Contains auth colon then
    match Split auth colon with
    | [u; p] => (u, p)
    | _ => (EmptyString, EmptyString)
    end
  else (EmptyString, EmptyString).

(** Lines 115-125: the loop over the pieces of [-i]. *)
Fixpoint indexLoop (index : list string) (indexArr : list string)
  : list string :=
  match indexArr with
  | [] => index
  | v :: rest =>
      if String.eqb v "" then indexLoop index rest
      else if String.eqb v "_all" then [v]
      else indexLoop (index ++ [v]) rest
  end.

(** Lines 112-127. *)
Definition parseIndex (optsIndex : list string) (indexPrefix : string)
  : list string :=
  if negb (String.eqb indexPrefix "")
  then indexLoop [] (Split indexPrefix comma)
  else optsIndex.

(** Lines 131-136: the loop over the pieces of [-f]. *)
Fixpoint fieldsLoop (queryFields : list string) (fieldArr : list string)
  : list string :=
  match fieldArr with
  | [] => queryFields
  | v :: rest =>
      if String.eqb v "" then fieldsLoop queryFields rest
      else fieldsLoop (queryFields ++ [v]) rest
  end.

(** Lines 128-138. *)
Definition parseFields (optsFields : list string) (fields : string)
  : list string :=
  if negb (String.eqb fields "")
  then fieldsLoop [] (Split fields comma)
  else optsFields.

(** What the program finds around it at start-up. *)
Record world := {
  stdout : writer;                              (* os.Stdout *)
  openFile : string -> option string * writer;  (* os.OpenFile: error, file *)
  newClient : option string;                    (* elasticsearch.NewClient: error *)
  info : option (Z * option (option string)) * option string;
    (* client.Info(): the response (its status, and its body when it is a
       JSON object: the number under "version" when "version" is an
       object) and the error *)
  indicesExists : list string -> option Z * option string
    (* Indices.Exists: the response's status and the error *)
}.

(** [main], lines 72-138: the options built from the flags; [None] is the
    [log.Fatalln] at line 97. *)
Definition mainOptions (fl : flags) (w : world) : outcome * option options :=
  let opened :=
    if flag_p fl then (None, stdout w) else openFile w (flag_o fl) in
  match fst opened with
  | Some e => (Fatal e, None)
  | None =>
      let '(u, p) := parseAuth (flag_a fl) in
      (Done,
       Some {| print := flag_p fl; outputFile := flag_o fl;
               output := snd opened;
               address := Split (flag_u fl) comma;
               index := parseIndex ["_all"%string] (flag_i fl);
               docType := flag_d fl; size := flag_s fl;
               maxResult := flag_m fl;
               fields := parseFields ["*"%string] (flag_f fl);
               q := flag_q fl; rawQuery := flag_r fl; queryBody := [];
               username := u; password := p |})
  end.

(** [getClient], lines 165-198. *)
Definition getClient (w : world) : outcome :=
  match newClient w with
  | Some e => Fatal ("Error creating the client: " ++ e)
  | None =>
      match snd (info w) with
      | Some e => Fatal ("Error getting response: " ++ e)
      | None =>
          match fst (info w) with
          | None => Panic      (* res.IsError() on a nil response *)
          | Some (status, body) =>
              if 299 <? status then Fatal "Error: response"
              else
                match body with
                | None => Fatal "Error parsing the response body"
                | Some None => Panic   (* r["version"] is no object *)
                | Some (Some _) => Done
                end
          end
      end
  end.

(** Lines 206-211: the first ["_all"] among the names replaces them all. *)
Fixpoint allIndex (names : list string) (index : list string) : list string :=
  match names with
  | [] => index
  | name :: rest =>
      if String.eqb name "_all" then [name] else allIndex rest index
  end.

(** [checkIndex], lines 201-221. *)
Definition checkIndex (w : world) (o : options) : outcome * options :=
  match index o with
  | [] => (Fatal "Error index", o)
  | _ =>
      let o :=
        {| print := print o; outputFile := outputFile o; output := output o;
           address := address o; index := allIndex (index o) (index o);
           docType := docType o; size := size o; maxResult := maxResult o;
           fields := fields o; q := q o; rawQuery := rawQuery o;
           queryBody := queryBody o; username := username o;
           password := password o |} in
      match snd (indicesExists w (index o)) with
      | Some e => (Fatal ("Error getting response: " ++ e), o)
      | None =>
          match fst (indicesExists w (index o)) with
          | None => (Panic, o)     (* res.StatusCode on a nil response *)
          | Some status =>
              if status =? 200 then (Done, o)
              else (Fatal ("Any of index(es) {" ++ Join (index o) comma
                           ++ "} does not exist in {"
                           ++ Join (address o) comma ++ "}."), o)
          end
      end
  end.

Section Query.

(** [encoding/json] on the raw query: [json.Unmarshal] into a map and
    [json.NewEncoder(&buf).Encode] of that map. *)
Context {J : Type} (unmarshalMap : string -> option J)
        (encodeMap : J -> option bytes).

(** [buildQuery], lines 224-241. *)
Definition buildQuery (o : options) : outcome * options :=
  let with_query (body : bytes) (qs : string) :=
    {| print := print o; outputFile := outputFile o; output := output o;
       address := address o; index := index o;
       docType := docType o; size := size o; maxResult := maxResult o;
       fields := fields o; q := qs; rawQuery := rawQuery o;
       queryBody := body; username := username o;
       password := password o |} in
  if rawQuery o && negb (String.eqb (q o) "") then
    match unmarshalMap (q o) with
    | None => (Fatal "Unmarshal with error", o)
    | Some query =>
        match encodeMap query with
        | None => (Fatal "Error encoding query", o)
        | Some body => (Done, with_query body EmptyString)
        end
    end
  else (Done, with_query [] (q o)).

(** [main] and [run] together: the options, the start-up checks, then the
    export of [run] on the state [main] builds. *)
Definition export {source} `{!Marshaler source} (fuel : nat) (fl : flags)
  (w : world) (c : cluster source)
  : outcome * option options * option (App source) :=
  match mainOptions fl w with
  | (Done, Some o) =>
      match getClient w with
      | Done =>
          match checkIndex w o with
          | (Done, o) =>
              match buildQuery o with
              | (Done, o) =>
                  let '(out, t) := run fuel (newApp (maxResult o) (output o) c) in
                  (out, Some o, Some t)
              | (stopped, o) => (stopped, Some o, None)
              end
          | (stopped, o) => (stopped, Some o, None)
          end
      | stopped => (stopped, Some o, None)
      end
  | (stopped, _) => (stopped, None, None)
  end.

End Query.

End Setup.

(** ** A concrete start-up *)

(** A cluster that is up: the client is created, [Info] answers with a
    version, and every index exists. *)
Definition up_world : Setup.world :=
  {| Setup.stdout := newWriter [];
     Setup.openFile := fun _ => (None, newWriter []);
     Setup.newClient := None;
     Setup.info := (Some (200, Some (Some "6.8.0"%string)), None);
     Setup.indicesExists := fun _ => (Some 200, None) |}.

(** The flags at their defaults but for [-i] and [-a]. *)
Definition flags_with (i a : string) : Setup.flags :=
  {| Setup.flag_q := ""; Setup.flag_r := false;
     Setup.flag_u := "http://localhost:9200"; Setup.flag_a := a;
     Setup.flag_i := i; Setup.flag_d := "_doc"; Setup.flag_f := "";
     Setup.flag_p := false; Setup.flag_o := "./es.export.log";
     Setup.flag_m := 0; Setup.flag_s := 1000 |}.

(** The options [main] builds from [flags_with "logs" ""]. *)
Definition logs_options : Setup.options :=
  {| Setup.print := false; Setup.outputFile := "./es.export.log";
     Setup.output := newWriter [];
     Setup.address := ["http://localhost:9200"%string];
     Setup.index := ["logs"%string]; Setup.docType := "_doc";
     Setup.size := 1000; Setup.maxResult := 0;
     Setup.fields := ["*"%string]; Setup.q := ""; Setup.rawQuery := false;
     Setup.queryBody := []; Setup.username := ""; Setup.password := "" |}.

(** Options with a raw query. *)
Definition raw_options : Setup.options :=
  {| Setup.print := false; Setup.outputFile := "./es.export.log";
     Setup.output := newWriter [];
     Setup.address := ["http://localhost:9200"%string];
     Setup.index := ["logs"%string]; Setup.docType := "_doc";
     Setup.size := 1000; Setup.maxResult := 0;
     Setup.fields := ["*"%string]; Setup.q := "{}"; Setup.rawQuery := true;
     Setup.queryBody := []; Setup.username := ""; Setup.password := "" |}.

(** A stand-in for [encoding/json] on query objects: every string that
    starts with a brace is an object, encoded as it is. *)
Definition toy_unmarshal (s : string) : option string :=
  match s with
  | String c _ => if Ascii.eqb c (Ascii.ascii_of_nat 123) then Some s else None
  | EmptyString => None
  end.

Definition toy_encode (s : string) : option bytes :=
  Some (String.list_byte_of_string s).

(** * Properties *)

Section Facts.

Context {source : Type} `{!Marshaler source}.

Implicit Types (t : App source) (r : result source) (vs hs : list (hit source)).

Lemma flushToFile_eq t hs :
  flushToFile t hs =
  set_flushed (flushed t ++ [hs])
    (set_output (fst (Write (output t) (encode hs))) t).
Proof. unfold flushToFile. destruct (Write _ _); reflexivity. Qed.

Lemma rangeHits_cons t v vs :
  rangeHits t (v :: vs) =
  if limitHit (flushIfFull (appendHit v t))
  then flushAll (flushIfFull (appendHit v t))
  else rangeHits (flushIfFull (appendHit v t)) vs.
Proof. reflexivity. Qed.

(** ** Invariants of the whole driver

    A property that every primitive step keeps is kept by [parseResult],
    [pageLoop] and [scroll], however they end. *)

Lemma rangeHits_kept I (K : kept I) vs : forall t, I t -> I (rangeHits t vs).
Proof.
  induction vs as [|v vs IH]; intros t Ht; [assumption|].
  rewrite rangeHits_cons.
  assert (H1 : I (flushIfFull (appendHit v t))).
  { unfold flushIfFull. destruct K. destruct (Nat.eqb _ _); auto. }
  destruct (limitHit _); [now apply (kept_flushAll I K) | now apply IH].
Qed.

Lemma setTargets_kept I (K : kept I) r t : I t -> I (setTargets r t).
Proof.
  destruct K. intros Ht. unfold setTargets.
  destruct (0 <? _); auto.
Qed.

Lemma noteScrollID_kept I (K : kept I) id t : I t -> I (noteScrollID id t).
Proof.
  destruct K. intros Ht. unfold noteScrollID. destruct (decide _); auto.
Qed.

Lemma flushRest_kept I (K : kept I) t : I t -> I (flushRest t).
Proof.
  intros Ht. unfold flushRest.
  destruct (Nat.ltb _ _); [now apply (kept_flushAll I K) | assumption].
Qed.

Lemma driver_kept I (K : kept I) fuel :
  (forall t response, I t -> I (snd (parseResult fuel t response))) /\
  (forall t r, I t -> I (snd (pageLoop fuel t r))) /\
  (forall t id, I t -> I (snd (scroll fuel t id))).
Proof.
  induction fuel as [|fuel (IHp & IHl & IHs)].
  { repeat split; intros; simpl; assumption. }
  split; [|split].
  - intros t response Ht. simpl.
    destruct (IsError response).
    { destruct (Body response); assumption. }
    destruct (decode_result _) as [r|]; [|assumption].
    pose proof (setTargets_kept I K r t Ht) as H1.
    destruct (_ && _); [|assumption].
    specialize (IHl _ r H1).
    destruct (pageLoop fuel _ r) as [[] t']; simpl in *; try assumption.
    now apply flushRest_kept.
  - intros t r Ht. simpl.
    destruct (_ =? _); [assumption|].
    pose proof (rangeHits_kept I K (Hits_ (Hits r)) _
                  (noteScrollID_kept I K (ScrollID r) t Ht)) as H1.
    specialize (IHs _ (ScrollID r) H1).
    destruct (scroll fuel _ _) as [[] t']; simpl in *; try assumption.
    now apply IHl.
  - intros t id Ht. simpl.
    pose proof (kept_call I K t (EvScroll id) (fun _ => eq_refl) Ht) as H1.
    destruct (call_cluster _ t) as [f t1]. simpl in H1.
    destruct (res f) as [response|]; [|assumption].
    destruct (err f); [assumption|].
    now apply IHp.
Qed.

Lemma run_kept I (K : kept I) fuel t : I t -> I (snd (run fuel t)).
Proof.
  intros Ht. unfold run, search.
  pose proof (kept_call I K t EvSearch (fun _ => eq_refl) Ht) as H1.
  destruct (call_cluster _ t) as [f t1]. simpl in H1.
  destruct (res f) as [response|]; [|assumption].
  destruct (err f); [assumption|].
  pose proof (proj1 (driver_kept I K fuel) t1 response H1) as H2.
  destruct (parseResult fuel t1 response) as [[] t']; assumption.
Qed.

(** ** The output stream does not steer the driver *)

Ltac fields :=
  unfold same_but_output, flushAll, appendHit in *;
  rewrite ?flushToFile_eq; simpl; intuition congruence.

Lemma flushAll_same_but_output t1 t2 :
  same_but_output t1 t2 -> same_but_output (flushAll t1) (flushAll t2).
Proof. intros H. fields. Qed.

Lemma rangeHits_same_but_output vs : forall t1 t2,
  same_but_output t1 t2 -> same_but_output (rangeHits t1 vs) (rangeHits t2 vs).
Proof.
  induction vs as [|v vs IH]; intros t1 t2 H; [assumption|].
  rewrite !rangeHits_cons.
  assert (H1 : same_but_output (flushIfFull (appendHit v t1))
                               (flushIfFull (appendHit v t2))).
  { unfold flushIfFull.
    replace (hitResult (appendHit v t2)) with (hitResult (appendHit v t1))
      by fields.
    destruct (Nat.eqb _ _); fields. }
  replace (limitHit (flushIfFull (appendHit v t2)))
    with (limitHit (flushIfFull (appendHit v t1))).
  2:{ unfold limitHit. destruct H1 as (-> & -> & _). reflexivity. }
  destruct (limitHit _); [|now apply IH].
  now apply flushAll_same_but_output.
Qed.

Lemma driver_same_but_output fuel :
  (forall t1 t2 response, same_but_output t1 t2 ->
     fst (parseResult fuel t1 response) = fst (parseResult fuel t2 response) /\
     same_but_output (snd (parseResult fuel t1 response))
                     (snd (parseResult fuel t2 response))) /\
  (forall t1 t2 r, same_but_output t1 t2 ->
     fst (pageLoop fuel t1 r) = fst (pageLoop fuel t2 r) /\
     same_but_output (snd (pageLoop fuel t1 r)) (snd (pageLoop fuel t2 r))) /\
  (forall t1 t2 id, same_but_output t1 t2 ->
     fst (scroll fuel t1 id) = fst (scroll fuel t2 id) /\
     same_but_output (snd (scroll fuel t1 id)) (snd (scroll fuel t2 id))).
Proof.
  induction fuel as [|fuel (IHp & IHl & IHs)].
  { repeat split; simpl; fields. }
  split; [|split].
  - intros t1 t2 response H. simpl.
    destruct (IsError response).
    { destruct (Body response); simpl; auto. }
    destruct (decode_result _) as [r|]; simpl; [|auto].
    assert (H1 : same_but_output (setTargets r t1) (setTargets r t2)).
    { unfold setTargets. simpl.
      replace (maxResult t2) with (maxResult t1) by fields.
      destruct (0 <? _); fields. }
    replace (numResult (setTargets r t2)) with (numResult (setTargets r t1))
      by fields.
    destruct (_ && _); simpl; [|auto].
    destruct (IHl _ _ r H1) as [Ho Hs].
    destruct (pageLoop fuel (setTargets r t1) r) as [o1 s1].
    destruct (pageLoop fuel (setTargets r t2) r) as [o2 s2].
    simpl in *. subst o2.
    destruct o1; simpl; auto. split; [reflexivity|].
    unfold flushRest.
    replace (hitResult s2) with (hitResult s1) by fields.
    destruct (Nat.ltb _ _); [now apply flushAll_same_but_output | assumption].
  - intros t1 t2 r H. simpl.
    replace (totalLines t2) with (totalLines t1) by fields.
    replace (numResult t2) with (numResult t1) by fields.
    destruct (_ =? _); simpl; [auto|].
    assert (H1 : same_but_output (noteScrollID (ScrollID r) t1)
                                 (noteScrollID (ScrollID r) t2)).
    { unfold noteScrollID.
      replace (sIDs t2) with (sIDs t1) by fields.
      destruct (decide _); fields. }
    apply (rangeHits_same_but_output (Hits_ (Hits r))) in H1.
    destruct (IHs _ _ (ScrollID r) H1) as [Ho Hs].
    destruct (scroll fuel (rangeHits (noteScrollID _ t1) _) _) as [o1 s1].
    destruct (scroll fuel (rangeHits (noteScrollID _ t2) _) _) as [o2 s2].
    simpl in *. subst o2.
    destruct o1; simpl; auto.
  - intros t1 t2 id H. simpl. unfold call_cluster.
    replace (esClient t2) with (esClient t1) by fields.
    destruct (next_fetch (esClient t1)) as [f c].
    destruct (res f) as [response|]; simpl; [|fields].
    destruct (err f); simpl; [fields|].
    apply IHp. fields.
Qed.

Lemma run_same_but_output fuel t1 t2 :
  same_but_output t1 t2 ->
  fst (run fuel t1) = fst (run fuel t2) /\
  same_but_output (snd (run fuel t1)) (snd (run fuel t2)).
Proof.
  intros H. unfold run, search, call_cluster.
  replace (esClient t2) with (esClient t1) by fields.
  destruct (next_fetch (esClient t1)) as [f c].
  destruct (res f) as [response|]; simpl; [|fields].
  destruct (err f); simpl; [fields|].
  set (a := answered c (EvSearch f) t1).
  set (b := answered c (EvSearch f) t2).
  assert (H1 : same_but_output a b) by (subst a b; fields).
  destruct (proj1 (driver_same_but_output fuel) a b response H1) as [Ho Hs].
  destruct (parseResult fuel a response) as [o1 s1].
  destruct (parseResult fuel b response) as [o2 s2].
  simpl in *. subst o2. destruct o1; simpl; auto.
Qed.

(** ** One pass over the records of a page *)

Lemma same_setup_refl t : same_setup t t.
Proof. repeat split. Qed.

Lemma same_setup_trans t1 t2 t3 :
  same_setup t1 t2 -> same_setup t2 t3 -> same_setup t1 t3.
Proof. unfold same_setup. intuition congruence. Qed.

Lemma flushAll_setup t : same_setup t (flushAll t).
Proof. unfold flushAll. rewrite flushToFile_eq. repeat split. Qed.

Lemma flushAll_counters t :
  totalLines (flushAll t) = totalLines t /\
  hitResult (flushAll t) = [] /\
  flushed (flushAll t) = flushed t ++ [hitResult t].
Proof. unfold flushAll. rewrite flushToFile_eq. repeat split. Qed.

Lemma flushAll_emitted t : emitted (flushAll t) = emitted t.
Proof.
  unfold emitted. destruct (flushAll_counters t) as (_ & -> & ->).
  rewrite concat_app. simpl. now rewrite !app_nil_r.
Qed.

Lemma step_setup v t : same_setup t (flushIfFull (appendHit v t)).
Proof.
  unfold flushIfFull. destruct (Nat.eqb _ _).
  - eapply same_setup_trans; [|apply flushAll_setup]. repeat split.
  - repeat split.
Qed.

Lemma step_totalLines v t :
  totalLines (flushIfFull (appendHit v t)) = Go.wrap64 (totalLines t + 1).
Proof.
  unfold flushIfFull. destruct (Nat.eqb _ _); [|reflexivity].
  now destruct (flushAll_counters (appendHit v t)) as (-> & _).
Qed.

Lemma step_emitted v t :
  emitted (flushIfFull (appendHit v t)) = emitted t ++ [v].
Proof.
  unfold flushIfFull. destruct (Nat.eqb _ _); rewrite ?flushAll_emitted;
    unfold emitted; simpl; now rewrite app_assoc.
Qed.

Lemma step_buffering v t :
  buffering t -> buffering (flushIfFull (appendHit v t)).
Proof.
  intros [Hlen Hfull]. unfold flushIfFull.
  destruct (Nat.eqb_spec (length (hitResult (appendHit v t))) FLUSHBUFFER)
    as [E|E].
  - destruct (flushAll_counters (appendHit v t)) as (_ & Hb & Hf).
    split; [rewrite Hb; unfold FLUSHBUFFER; simpl; lia|].
    rewrite Hf. apply Forall_app. split; [assumption|].
    constructor; [exact E | constructor].
  - split; [|assumption].
    simpl in *. rewrite length_app in *. simpl in *. lia.
Qed.

Lemma rangeHits_setup vs : forall t, same_setup t (rangeHits t vs).
Proof.
  induction vs as [|v vs IH]; intros t; [apply same_setup_refl|].
  rewrite rangeHits_cons.
  pose proof (step_setup v t) as H1.
  destruct (limitHit _).
  - eapply same_setup_trans; [exact H1 | apply flushAll_setup].
  - eapply same_setup_trans; [exact H1 | apply IH].
Qed.

Lemma flushRest_setup t : same_setup t (flushRest t).
Proof.
  unfold flushRest.
  destruct (Nat.ltb _ _); [apply flushAll_setup | apply same_setup_refl].
Qed.

Lemma wrap64_succ c n :
  Go.wrap64 (Go.wrap64 (c + 1) + n) = Go.wrap64 (c + (1 + n)).
Proof.
  unfold Go.wrap64. rewrite Zplus_mod_idemp_l. f_equal. lia.
Qed.

Lemma wrap64_small c : 0 <= c < 2 ^ 64 -> Go.wrap64 c = c.
Proof. intros H. unfold Go.wrap64. now apply Z.mod_small. Qed.

Lemma int_of_uint64_small c : 0 <= c < 2 ^ 63 -> Go.int_of_uint64 c = c.
Proof.
  intros H. unfold Go.int_of_uint64.
  destruct (Z.ltb_spec c (2 ^ 63)); lia.
Qed.

Lemma wrap64_range c : 0 <= Go.wrap64 c < 2 ^ 64.
Proof. unfold Go.wrap64. apply Z.mod_pos_bound. lia. Qed.

(** Without a limit the range loop takes every record of the page. *)
Lemma rangeHits_unlimited vs : forall t,
  maxResult t <= 0 ->
  0 <= totalLines t < 2 ^ 64 ->
  totalLines (rangeHits t vs) =
    Go.wrap64 (totalLines t + Z.of_nat (length vs)) /\
  emitted (rangeHits t vs) = emitted t ++ vs /\
  (buffering t -> buffering (rangeHits t vs)).
Proof.
  induction vs as [|v vs IH]; intros t Hm Hc.
  - simpl. rewrite Z.add_0_r, app_nil_r, wrap64_small by assumption.
    auto.
  - rewrite rangeHits_cons.
    pose proof (step_setup v t) as (Hs & _).
    assert (Hl : limitHit (flushIfFull (appendHit v t)) = false).
    { unfold limitHit. rewrite Hs.
      destruct (Z.ltb_spec 0 (maxResult t)); [lia | reflexivity]. }
    rewrite Hl.
    destruct (IH (flushIfFull (appendHit v t))) as (H1 & H2 & H3);
      [lia | rewrite step_totalLines; apply wrap64_range |].
    rewrite H1, H2, step_totalLines, step_emitted, wrap64_succ.
    split; [|split].
    + f_equal. simpl length. lia.
    + now rewrite <- app_assoc.
    + intros Hb. now apply H3, step_buffering.
Qed.

(** With a limit that the page does not reach, likewise. *)
Lemma rangeHits_below_limit vs : forall t,
  0 <= totalLines t ->
  totalLines t + Z.of_nat (length vs) < maxResult t ->
  maxResult t < 2 ^ 63 ->
  totalLines (rangeHits t vs) = totalLines t + Z.of_nat (length vs) /\
  emitted (rangeHits t vs) = emitted t ++ vs.
Proof.
  induction vs as [|v vs IH]; intros t Hc Hlt Hm.
  - simpl. now rewrite Z.add_0_r, app_nil_r.
  - rewrite rangeHits_cons.
    pose proof (step_setup v t) as (Hs & _).
    simpl length in Hlt.
    assert (Ht : totalLines (flushIfFull (appendHit v t)) = totalLines t + 1).
    { rewrite step_totalLines. apply wrap64_small. lia. }
    assert (Hl : limitHit (flushIfFull (appendHit v t)) = false).
    { unfold limitHit. rewrite Hs, Ht, int_of_uint64_small by lia.
      destruct (Z.eqb_spec (totalLines t + 1) (maxResult t)); [lia|].
      apply andb_false_r. }
    rewrite Hl.
    destruct (IH (flushIfFull (appendHit v t))) as (H1 & H2);
      [lia | lia | lia |].
    rewrite H1, H2, Ht, step_emitted. split.
    + simpl length. lia.
    + now rewrite <- app_assoc.
Qed.

(** With a limit that the page reaches, the loop breaks at the record
    that meets it, with the buffer flushed. *)
Lemma rangeHits_at_limit vs : forall t,
  0 <= totalLines t < maxResult t ->
  maxResult t <= totalLines t + Z.of_nat (length vs) ->
  maxResult t < 2 ^ 63 ->
  totalLines (rangeHits t vs) = maxResult t /\
  hitResult (rangeHits t vs) = [] /\
  emitted (rangeHits t vs) =
    emitted t ++ take (Z.to_nat (maxResult t - totalLines t)) vs.
Proof.
  induction vs as [|v vs IH]; intros t Hc Hle Hm.
  - simpl in Hle. lia.
  - rewrite rangeHits_cons.
    pose proof (step_setup v t) as (Hs & _).
    simpl length in Hle.
    assert (Ht : totalLines (flushIfFull (appendHit v t)) = totalLines t + 1).
    { rewrite step_totalLines. apply wrap64_small. lia. }
    unfold limitHit. rewrite Hs, Ht, int_of_uint64_small by lia.
    replace (0 <? maxResult t) with true
      by (symmetry; apply Z.ltb_lt; lia).
    simpl andb.
    destruct (Z.eqb_spec (totalLines t + 1) (maxResult t)) as [E|E].
    + destruct (flushAll_counters (flushIfFull (appendHit v t)))
        as (H1 & H2 & _).
      rewrite H1, H2, flushAll_emitted, step_emitted, Ht.
      repeat split; [assumption|].
      replace (Z.to_nat (maxResult t - totalLines t)) with 1%nat by lia.
      reflexivity.
    + destruct (IH (flushIfFull (appendHit v t))) as (H1 & H2 & H3);
        [lia | lia | lia |].
      rewrite H1, H2, H3, Hs, Ht, step_emitted.
      repeat split.
      replace (Z.to_nat (maxResult t - totalLines t))
        with (S (Z.to_nat (maxResult t - (totalLines t + 1)))) by lia.
      simpl. now rewrite <- app_assoc.
Qed.

(** ** Runs without a limit: the shape of the flushes *)

Lemma setTargets_fields r t :
  maxResult (setTargets r t) = maxResult t /\
  totalLines (setTargets r t) = totalLines t /\
  hitResult (setTargets r t) = hitResult t /\
  flushed (setTargets r t) = flushed t /\
  requests (setTargets r t) = requests t /\
  esClient (setTargets r t) = esClient t /\
  output (setTargets r t) = output t /\
  queryResult (setTargets r t) = Total (Hits r) /\
  numResult (setTargets r t) =
    (if 0 <? maxResult t then Go.uint64_of_int (maxResult t)
     else Total (Hits r)).
Proof. unfold setTargets. simpl. destruct (0 <? _); repeat split. Qed.

Lemma noteScrollID_fields id t :
  maxResult (noteScrollID id t) = maxResult t /\
  totalLines (noteScrollID id t) = totalLines t /\
  hitResult (noteScrollID id t) = hitResult t /\
  flushed (noteScrollID id t) = flushed t /\
  requests (noteScrollID id t) = requests t /\
  esClient (noteScrollID id t) = esClient t /\
  output (noteScrollID id t) = output t /\
  queryResult (noteScrollID id t) = queryResult t /\
  numResult (noteScrollID id t) = numResult t.
Proof.
  unfold noteScrollID. destruct (decide _); repeat split.
Qed.

Lemma buffering_ext t t' :
  hitResult t' = hitResult t -> flushed t' = flushed t ->
  buffering t -> buffering t'.
Proof. unfold buffering. now intros -> ->. Qed.

Lemma rangeHits_buffering vs : forall t,
  maxResult t <= 0 -> buffering t -> buffering (rangeHits t vs).
Proof.
  induction vs as [|v vs IH]; intros t Hm Hb; [assumption|].
  rewrite rangeHits_cons.
  pose proof (step_setup v t) as (Hs & _).
  assert (Hl : limitHit (flushIfFull (appendHit v t)) = false).
  { unfold limitHit. rewrite Hs.
    destruct (Z.ltb_spec 0 (maxResult t)); [lia | reflexivity]. }
  rewrite Hl. apply IH; [lia | now apply step_buffering].
Qed.

Lemma pageLoop_exit fuel t r t' :
  totalLines t = numResult t -> pageLoop fuel t r = (Done, t') -> t' = t.
Proof.
  intros E H. destruct fuel; simpl in H; [discriminate|].
  rewrite E, Z.eqb_refl in H. congruence.
Qed.

Lemma buffering_settled t : buffering t -> settled (flushRest t).
Proof.
  intros [Hlen Hfull]. unfold flushRest.
  destruct (Nat.ltb_spec 0 (length (hitResult t))) as [Hpos|Hz].
  - destruct (flushAll_counters t) as (_ & Hb & Hf).
    split; [assumption|]. rewrite Hf.
    exists (flushed t), [hitResult t]. repeat split; [assumption|].
    right. exists (hitResult t). split; [reflexivity | lia].
  - split; [destruct (hitResult t); [reflexivity | simpl in Hz; lia]|].
    exists (flushed t), []. rewrite app_nil_r. auto.
Qed.

Lemma flushRest_totalLines t : totalLines (flushRest t) = totalLines t.
Proof.
  unfold flushRest. destruct (Nat.ltb 0 (length (hitResult t))); [|reflexivity].
  now destruct (flushAll_counters t) as (-> & _).
Qed.

Lemma settled_flushRest t : settled t -> flushRest t = t.
Proof. intros [E _]. unfold flushRest. now rewrite E. Qed.

Lemma skipped_buffering response t t' :
  skipped response t t' -> buffering t -> buffering t'.
Proof.
  intros (r & _ & -> & _).
  destruct (setTargets_fields r t) as (_ & _ & H1 & H2 & _).
  now apply buffering_ext.
Qed.

Lemma unlimited_driver fuel :
  (forall t response t',
     maxResult t <= 0 -> buffering t ->
     parseResult fuel t response = (Done, t') ->
     maxResult t' = maxResult t /\ numResult t' = queryResult t' /\
     (skipped response t t' \/
      (settled t' /\ totalLines t' = numResult t'))) /\
  (forall t r t',
     maxResult t <= 0 -> buffering t -> numResult t = queryResult t ->
     pageLoop fuel t r = (Done, t') ->
     maxResult t' = maxResult t /\ numResult t' = queryResult t' /\
     totalLines t' = numResult t' /\ (buffering t' \/ settled t')) /\
  (forall t id t',
     maxResult t <= 0 -> buffering t ->
     scroll fuel t id = (Done, t') ->
     maxResult t' = maxResult t /\ numResult t' = queryResult t' /\
     (buffering t' \/ (settled t' /\ totalLines t' = numResult t'))).
Proof.
  induction fuel as [|fuel (IHp & IHl & IHs)].
  { repeat split; intros; simpl in *; discriminate. }
  split; [|split].
  - intros t response t' Hm Hb H. simpl in H.
    destruct (IsError response); [destruct (Body response); discriminate|].
    destruct (decode_result (Body response)) as [r|] eqn:D; [|discriminate].
    destruct (setTargets_fields r t) as (F1 & F2 & F3 & F4 & _ & _ & _ & F5 & F6).
    assert (Hq : numResult (setTargets r t) = queryResult (setTargets r t)).
    { rewrite F5, F6. destruct (Z.ltb_spec 0 (maxResult t)); [lia | reflexivity]. }
    destruct (_ && _) eqn:G.
    + destruct (pageLoop fuel (setTargets r t) r) as [o t1] eqn:L.
      destruct o; try discriminate.
      injection H as <-.
      apply IHl in L; [|lia | now apply (buffering_ext t) | assumption].
      destruct L as (L1 & L2 & L3 & L4).
      destruct (flushRest_setup t1) as (S1 & S2 & S3 & _).
      pose proof (flushRest_totalLines t1) as Ht.
      rewrite S1, S2, S3, Ht.
      split; [congruence|]. split; [assumption|]. right.
      split; [|assumption].
      destruct L4 as [L4|L4]; [now apply buffering_settled|].
      now rewrite settled_flushRest.
    + injection H as <-. rewrite F1. repeat split; [assumption|].
      left. exists r. auto.
  - intros t r t' Hm Hb Hq H. simpl in H.
    destruct (Z.eqb_spec (totalLines t) (numResult t)) as [E|E].
    { injection H as <-. auto. }
    set (t2 := rangeHits (noteScrollID (ScrollID r) t) (Hits_ (Hits r))) in *.
    assert (Hm2 : maxResult t2 = maxResult t).
    { subst t2. destruct (rangeHits_setup (Hits_ (Hits r))
                            (noteScrollID (ScrollID r) t)) as (-> & _).
      unfold noteScrollID. now destruct (decide _). }
    assert (Hb2 : buffering t2).
    { subst t2. apply rangeHits_buffering.
      - unfold noteScrollID. now destruct (decide _).
      - unfold noteScrollID. now destruct (decide _). }
    destruct (scroll fuel t2 (ScrollID r)) as [o t3] eqn:S.
    destruct o; try discriminate.
    apply IHs in S; [|lia | assumption].
    destruct S as (S1 & S2 & [S3|[S3 S4]]).
    + apply IHl in H; [|lia | assumption | assumption].
      destruct H as (H1 & H2 & H3 & H4).
      repeat split; try assumption. congruence.
    + apply pageLoop_exit in H; [|assumption]. subst t'.
      repeat split; try assumption; [congruence | now right].
  - intros t id t' Hm Hb H. simpl in H. unfold call_cluster in H.
    destruct (next_fetch (esClient t)) as [f c].
    destruct (res f) as [response|]; [|discriminate].
    destruct (err f); [discriminate|].
    apply IHp in H; [|assumption | assumption].
    destruct H as (H1 & H2 & [H3|H3]).
    + repeat split; try assumption. left.
      now apply (skipped_buffering _ _ _ H3).
    + repeat split; try assumption. now right.
Qed.

Lemma full_concat_length (whole : list (list (hit source))) :
  Forall full whole ->
  length (concat whole) = (FLUSHBUFFER * length whole)%nat.
Proof.
  induction 1 as [|c whole Hc _ IH]; [reflexivity|].
  cbn [concat length]. unfold full in Hc.
  rewrite length_app, IH, Hc. unfold FLUSHBUFFER. lia.
Qed.

Lemma shaped_count (fl : list (list (hit source))) :
  shaped fl ->
  length fl = ((length (concat fl) + 999) / FLUSHBUFFER)%nat.
Proof.
  intros (whole & rest & -> & Hw & Hr).
  rewrite concat_app, !length_app, (full_concat_length whole Hw).
  unfold FLUSHBUFFER in *.
  destruct Hr as [->|(c & -> & Hc)]; cbn [concat length app].
  - apply (Nat.div_unique _ _ _ 999); lia.
  - rewrite app_nil_r.
    apply (Nat.div_unique _ _ _ (length c - 1)); lia.
Qed.

(** ** The stored total follows the latest response *)

Lemma latest_total_app q q1 q2 (es1 es2 : list (event source)) :
  latest_total q es1 = Some q1 -> latest_total q1 es2 = Some q2 ->
  latest_total q (es1 ++ es2) = Some q2.
Proof.
  unfold latest_total. rewrite last_app.
  destruct (last es2); [tauto|]. intros -> H. exact H.
Qed.

Lemma latest_driver fuel :
  (forall t response t',
     parseResult fuel t response = (Done, t') ->
     exists r es,
       decode_result (Body response) = Some r /\
       requests t' = requests t ++ es /\
       latest_total (Total (Hits r)) es = Some (queryResult t')) /\
  (forall t r t',
     pageLoop fuel t r = (Done, t') ->
     exists es,
       requests t' = requests t ++ es /\
       latest_total (queryResult t) es = Some (queryResult t')) /\
  (forall t id t',
     scroll fuel t id = (Done, t') ->
     exists f es,
       requests t' = requests t ++ EvScroll id f :: es /\
       forall q, latest_total q (EvScroll id f :: es) = Some (queryResult t')).
Proof.
  induction fuel as [|fuel (IHp & IHl & IHs)].
  { repeat split; intros; simpl in *; discriminate. }
  split; [|split].
  - intros t response t' H. simpl in H.
    destruct (IsError response); [destruct (Body response); discriminate|].
    destruct (decode_result (Body response)) as [r|] eqn:D; [|discriminate].
    exists r.
    destruct (setTargets_fields r t) as (_ & _ & _ & _ & F1 & _ & _ & F2 & _).
    destruct (_ && _).
    + destruct (pageLoop fuel (setTargets r t) r) as [o t1] eqn:L.
      destruct o; try discriminate. injection H as <-.
      apply IHl in L. destruct L as (es & L1 & L2).
      destruct (flushRest_setup t1) as (_ & S1 & _ & _ & _ & _ & S2).
      exists es. rewrite S1, S2, L1, F1, <- F2. auto.
    + injection H as <-. exists []. rewrite app_nil_r, F1, F2. auto.
  - intros t r t' H. simpl in H.
    destruct (_ =? _).
    { injection H as <-. exists []. now rewrite app_nil_r. }
    set (t2 := rangeHits (noteScrollID (ScrollID r) t) (Hits_ (Hits r))) in *.
    assert (H2 : requests t2 = requests t /\ queryResult t2 = queryResult t).
    { subst t2.
      destruct (rangeHits_setup (Hits_ (Hits r)) (noteScrollID (ScrollID r) t))
        as (_ & -> & _ & _ & _ & _ & ->).
      destruct (noteScrollID_fields (ScrollID r) t)
        as (_ & _ & _ & _ & -> & _ & _ & -> & _). auto. }
    destruct H2 as [R2 Q2].
    destruct (scroll fuel t2 (ScrollID r)) as [o t3] eqn:S.
    destruct o; try discriminate.
    apply IHs in S. destruct S as (f & es1 & S1 & S2).
    apply IHl in H. destruct H as (es2 & H1 & H2).
    exists ((EvScroll (ScrollID r) f :: es1) ++ es2). split.
    + rewrite H1, S1, R2. now rewrite <- app_assoc.
    + eapply latest_total_app; [apply S2 | exact H2].
  - intros t id t' H. simpl in H. unfold call_cluster in H.
    destruct (next_fetch (esClient t)) as [f c].
    destruct (res f) as [response|] eqn:Rf; [|discriminate].
    destruct (err f); [discriminate|].
    apply IHp in H. destruct H as (r & es & D & H1 & H2).
    exists f, es. simpl in H1. split.
    + rewrite H1. now rewrite <- app_assoc.
    + intros q.
      apply (latest_total_app q (Total (Hits r)) _ [EvScroll id f] es);
        [|exact H2].
      unfold latest_total. simpl. now rewrite Rf, D.
Qed.

(** ** Properties kept by every step *)

Lemma counted_kept : kept (counted (source := source)).
Proof.
  unfold counted. split; try (intros; assumption).
  - intros t H. rewrite flushAll_emitted.
    now destruct (flushAll_counters t) as (-> & _).
  - intros t v H. unfold emitted in *. simpl.
    rewrite H, app_assoc, (length_app _ [v]). simpl length.
    unfold Go.wrap64. rewrite Zplus_mod_idemp_l. f_equal. lia.
  - intros t mk _ H. unfold call_cluster.
    now destruct (next_fetch _).
Qed.

Lemma no_release_kept :
  kept (fun t => Forall (fun e => is_release e = false) (requests t)).
Proof.
  split; try (intros; assumption).
  - intros t H. now destruct (flushAll_setup t) as (_ & _ & _ & _ & _ & _ & ->).
  - intros t mk Hmk H. unfold call_cluster.
    destruct (next_fetch _). simpl.
    apply Forall_app. split; [assumption|]. constructor; [apply Hmk|constructor].
Qed.

Lemma scrollIDs_kept (l : list string) : kept (fun t => scrollIDs t = l).
Proof.
  split; try (intros; assumption).
  - intros t H. now destruct (flushAll_setup t) as (_ & _ & _ & -> & _).
  - intros t mk _ H. unfold call_cluster. now destruct (next_fetch _).
Qed.

(** ** Runs over a cluster that serves its pages in order *)

Lemma parseResult_ok fuel t r :
  parseResult (S fuel) t (ok_response r) =
  if (0 <? numResult (setTargets r t)) && Nat.ltb 0 (length (Hits_ (Hits r)))
  then match pageLoop fuel (setTargets r t) r with
       | (Done, t') => (Done, flushRest t')
       | stopped => stopped
       end
  else (Done, setTargets r t).
Proof. reflexivity. Qed.

Lemma pageLoop_S fuel t r :
  pageLoop (S fuel) t r =
  if totalLines t =? numResult t then (Done, t)
  else match scroll fuel
               (rangeHits (noteScrollID (ScrollID r) t) (Hits_ (Hits r)))
               (ScrollID r) with
       | (Done, t') => pageLoop fuel t' r
       | stopped => stopped
       end.
Proof. reflexivity. Qed.

Lemma scroll_next fuel t id f rest :
  script (esClient t) = f :: rest ->
  scroll (S fuel) t id =
  let t1 := answered {| script := rest; exhausted := exhausted (esClient t) |}
              (EvScroll id f) t in
  match res f with
  | None => (Panic, t1)
  | Some response =>
      match err f with
      | Some e => (Fatal ("Error getting scroll response: " ++ e), t1)
      | None => parseResult fuel t1 response
      end
  end.
Proof.
  intros H. simpl. unfold call_cluster, next_fetch. now rewrite H.
Qed.

Lemma emitted_ext t t' :
  hitResult t' = hitResult t -> flushed t' = flushed t ->
  emitted t' = emitted t.
Proof. unfold emitted. now intros -> ->. Qed.

Lemma flushRest_emitted t : emitted (flushRest t) = emitted t.
Proof.
  unfold flushRest.
  destruct (Nat.ltb 0 (length (hitResult t))); [apply flushAll_emitted|reflexivity].
Qed.

Lemma pass_setup r t :
  maxResult (pass r t) = maxResult t /\ numResult (pass r t) = numResult t /\
  esClient (pass r t) = esClient t /\ requests (pass r t) = requests t.
Proof.
  unfold pass.
  destruct (rangeHits_setup (Hits_ (Hits r)) (noteScrollID (ScrollID r) t))
    as (-> & _ & -> & _ & _ & -> & ->).
  destruct (noteScrollID_fields (ScrollID r) t)
    as (-> & _ & _ & _ & -> & -> & _ & _ & ->).
  auto.
Qed.

Lemma pass_emitted_base r t :
  emitted (noteScrollID (ScrollID r) t) = emitted t.
Proof.
  destruct (noteScrollID_fields (ScrollID r) t) as (_ & _ & H1 & H2 & _).
  now apply emitted_ext.
Qed.

(** After the last record the loop of every enclosing call ends. *)
Lemma finish_page fuel t r :
  totalLines t = numResult t ->
  match pageLoop (S fuel) t r with
  | (Done, t') => (Done, flushRest t')
  | stopped => stopped
  end = (Done, flushRest t).
Proof. intros E. rewrite pageLoop_S, E, Z.eqb_refl. reflexivity. Qed.

Lemma unlimited_pages ps : forall r t fuel T fin more,
  maxResult t <= 0 -> 0 <= totalLines t ->
  Forall (fun p => Hits_ (Hits p) <> [] /\ Total (Hits p) = T) (r :: ps) ->
  totalLines t + Z.of_nat (length (records (r :: ps))) = T -> T < 2 ^ 64 ->
  script (esClient t) = map ok ps ++ ok fin :: more ->
  Hits_ (Hits fin) = [] -> Total (Hits fin) = T ->
  (3 * length ps + 4 <= fuel)%nat ->
  exists t',
    parseResult fuel t (ok_response r) = (Done, t') /\
    maxResult t' = maxResult t /\
    totalLines t' = T /\ numResult t' = T /\
    emitted t' = emitted t ++ records (r :: ps) /\
    requests t' = requests t ++ scrolls (r :: ps) (map ok ps ++ [ok fin]) /\
    script (esClient t') = more.
Proof.
  induction ps as [|r2 ps IH];
    intros r t fuel T fin more Hm Hc Hall Hsum HT Hscript Hfin HfinT Hfuel;
    apply Forall_cons in Hall as [[Hne HTr] Hall']; destruct HTr;
    unfold records in Hsum; cbn [map concat] in Hsum;
    rewrite length_app in Hsum;
    (assert (Hlen : (0 < length (Hits_ (Hits r)))%nat)
       by (destruct (Hits_ (Hits r)); [congruence | simpl; lia]));
    destruct (setTargets_fields r t)
      as (F1 & F2 & F3 & F4 & F5 & F6 & _ & F7 & F8);
    (assert (F9 : numResult (setTargets r t) = Total (Hits r))
       by (rewrite F8; destruct (Z.ltb_spec 0 (maxResult t)); [lia | reflexivity]));
    destruct fuel as [|[|[|fuel]]]; try lia;
    rewrite parseResult_ok, F9;
    (replace (0 <? Total (Hits r)) with true
       by (symmetry; apply Z.ltb_lt; lia));
    (replace (Nat.ltb 0 (length (Hits_ (Hits r)))) with true
       by (symmetry; apply Nat.ltb_lt; lia));
    cbn [andb]; rewrite pageLoop_S, F2, F9;
    (replace (totalLines t =? Total (Hits r)) with false
       by (symmetry; apply Z.eqb_neq; lia));
    fold (pass r (setTargets r t));
    destruct (pass_setup r (setTargets r t)) as (P1 & P2 & P3 & P4);
    (destruct (rangeHits_unlimited (Hits_ (Hits r))
                 (noteScrollID (ScrollID r) (setTargets r t)))
       as (P5 & P6 & _);
     [ destruct (noteScrollID_fields (ScrollID r) (setTargets r t)) as (-> & _);
       lia
     | destruct (noteScrollID_fields (ScrollID r) (setTargets r t))
         as (_ & -> & _); lia
     | ]);
    fold (pass r (setTargets r t)) in P5, P6;
    rewrite pass_emitted_base, (emitted_ext t (setTargets r t) F3 F4) in P6;
    (destruct (noteScrollID_fields (ScrollID r) (setTargets r t))
       as (_ & N2 & _));
    rewrite N2, F2, wrap64_small in P5 by lia.
  - (* the last page *)
    cbn [map app] in Hscript. cbn [length] in Hsum.
    destruct fuel as [|fuel]; [cbn [length] in Hfuel; lia|].
    rewrite (scroll_next _ _ _ (ok fin) more) by congruence.
    cbn [ok res err]. rewrite parseResult_ok.
    set (t3 := answered _ _ (pass r (setTargets r t))).
    destruct (setTargets_fields fin t3)
      as (G1 & G2 & G3 & G4 & G5 & G6 & _ & G7 & G8).
    rewrite Hfin. cbn [length Nat.ltb Nat.leb]. rewrite andb_false_r.
    rewrite finish_page.
    2:{ rewrite G2, G8. subst t3. cbn [answered totalLines maxResult].
        rewrite P1, F1, P5.
        destruct (Z.ltb_spec 0 (maxResult t)); lia. }
    eexists. split; [reflexivity|].
    destruct (flushRest_setup (setTargets fin t3))
      as (S1 & _ & S3 & _ & _ & S6 & S7).
    rewrite flushRest_totalLines, flushRest_emitted, S1, S3, S6, S7.
    rewrite G1, G2, G5, G6, G8.
    rewrite (emitted_ext t3) by assumption.
    subst t3. cbn [answered totalLines maxResult requests esClient script].
    rewrite P1, F1, P4, F5, P5.
    replace (emitted _) with (emitted (pass r (setTargets r t)))
      by reflexivity.
    rewrite P6. unfold records. cbn [map concat]. rewrite app_nil_r.
    repeat split; try lia; try reflexivity.
    destruct (Z.ltb_spec 0 (maxResult t)); lia.
  - (* a page before the last *)
    cbn [map app] in Hscript.
    rewrite (scroll_next _ _ _ (ok r2) (map ok ps ++ ok fin :: more))
      by congruence.
    cbn [ok res err].
    set (t3 := answered _ _ (pass r (setTargets r t))).
    destruct (IH r2 t3 fuel (Total (Hits r)) fin more)
      as (t4 & E & I1 & I2 & I3 & I4 & I5 & I6);
      try assumption.
    + subst t3. cbn [answered maxResult]. lia.
    + subst t3. cbn [answered totalLines]. lia.
    + subst t3. cbn [answered totalLines]. unfold records.
      cbn [map concat]. lia.
    + reflexivity.
    + cbn [length] in Hfuel. lia.
    + rewrite E, finish_page by congruence.
      eexists. split; [reflexivity|].
      destruct (flushRest_setup t4) as (S1 & _ & S3 & _ & _ & S6 & S7).
      rewrite flushRest_totalLines, flushRest_emitted, S1, S3, S6, S7.
      rewrite I1, I2, I3, I4, I5, I6.
      subst t3. cbn [answered maxResult requests].
      replace (emitted _) with (emitted (pass r (setTargets r t)))
        by reflexivity.
      rewrite P1, F1, P4, F5, P6.
      repeat split.
      * unfold records. cbn [map concat]. now rewrite <- app_assoc.
      * now rewrite <- app_assoc.
Qed.

Lemma records_cons r (ps : list (result source)) :
  records (r :: ps) = Hits_ (Hits r) ++ records ps.
Proof. reflexivity. Qed.

Lemma parseResult_decoded fuel t response r :
  IsError response = false -> decode_result (Body response) = Some r ->
  parseResult (S fuel) t response = parseResult (S fuel) t (ok_response r).
Proof. intros H1 H2. simpl. now rewrite H1, H2. Qed.

Lemma flushRest_empty t : hitResult t = [] -> flushRest t = t.
Proof. intros E. unfold flushRest. now rewrite E. Qed.

Lemma uint64_of_int_small m : 0 <= m < 2 ^ 63 -> Go.uint64_of_int m = m.
Proof. intros H. unfold Go.uint64_of_int. apply Z.mod_small. lia. Qed.

(** Once the limit is met, a page that arrives is decoded and dropped. *)
Lemma parse_after_limit fuel t r :
  0 < maxResult t < 2 ^ 63 -> totalLines t = maxResult t ->
  hitResult t = [] ->
  parseResult (S (S fuel)) t (ok_response r) = (Done, setTargets r t).
Proof.
  intros Hm Ht Hb. rewrite parseResult_ok.
  destruct (setTargets_fields r t) as (F1 & F2 & F3 & _ & _ & _ & _ & _ & F8).
  assert (F9 : numResult (setTargets r t) = maxResult t).
  { rewrite F8. destruct (Z.ltb_spec 0 (maxResult t)); [|lia].
    apply uint64_of_int_small. lia. }
  destruct (_ && _); [|reflexivity].
  rewrite finish_page by congruence.
  now rewrite flushRest_empty by congruence.
Qed.

Lemma limited_pages ps : forall r t fuel fin response rf more,
  0 < maxResult t < 2 ^ 63 -> 0 <= totalLines t ->
  met_in_last (totalLines t) (maxResult t) r ps ->
  script (esClient t) = map ok ps ++ fin :: more ->
  res fin = Some response -> err fin = None ->
  IsError response = false -> decode_result (Body response) = Some rf ->
  (3 * length ps + 5 <= fuel)%nat ->
  exists t',
    parseResult fuel t (ok_response r) = (Done, t') /\
    maxResult t' = maxResult t /\
    totalLines t' = maxResult t /\ numResult t' = maxResult t /\
    hitResult t' = [] /\
    emitted t' =
      emitted t ++
      take (Z.to_nat (maxResult t - totalLines t)) (records (r :: ps)) /\
    requests t' = requests t ++ scrolls (r :: ps) (map ok ps ++ [fin]) /\
    script (esClient t') = more.
Proof.
  induction ps as [|r2 ps IH];
    intros r t fuel fin response rf more Hm Hc Hmet Hscript Hres Herr Hok Hdec
           Hfuel;
    cbn [met_in_last] in Hmet;
    (assert (Hlen : (0 < length (Hits_ (Hits r)))%nat)
       by (destruct Hmet as [Hmet Hmet'];
           destruct (Hits_ (Hits r)); [try congruence; simpl in *; lia
                                      | simpl; lia]));
    destruct (setTargets_fields r t)
      as (F1 & F2 & F3 & F4 & F5 & F6 & _ & F7 & F8);
    (assert (F9 : numResult (setTargets r t) = maxResult t)
       by (rewrite F8; destruct (Z.ltb_spec 0 (maxResult t)); [|lia];
           apply uint64_of_int_small; lia));
    destruct fuel as [|[|[|fuel]]]; try lia;
    rewrite parseResult_ok, F9;
    (replace (0 <? maxResult t) with true
       by (symmetry; apply Z.ltb_lt; lia));
    (replace (Nat.ltb 0 (length (Hits_ (Hits r)))) with true
       by (symmetry; apply Nat.ltb_lt; lia));
    cbn [andb]; rewrite pageLoop_S, F2, F9;
    (replace (totalLines t =? maxResult t) with false
       by (symmetry; apply Z.eqb_neq; lia));
    fold (pass r (setTargets r t));
    destruct (pass_setup r (setTargets r t)) as (P1 & P2 & P3 & P4);
    destruct (noteScrollID_fields (ScrollID r) (setTargets r t))
      as (N1 & N2 & N3 & _);
    pose proof (pass_emitted_base r (setTargets r t)) as N4;
    rewrite (emitted_ext t (setTargets r t) F3 F4) in N4.
  - (* the page in which the limit is met *)
    destruct (rangeHits_at_limit (Hits_ (Hits r))
                (noteScrollID (ScrollID r) (setTargets r t)))
      as (P5 & P6 & P7); [lia | lia | lia |].
    fold (pass r (setTargets r t)) in P5, P6, P7.
    rewrite N1, F1 in P5. rewrite N1, N2, N4, F1, F2 in P7.
    cbn [map app] in Hscript.
    destruct fuel as [|[|fuel]]; try (cbn [length] in Hfuel; lia).
    rewrite (scroll_next _ _ _ fin more) by congruence.
    cbv zeta. rewrite Hres, Herr.
    set (t3 := answered _ _ (pass r (setTargets r t))).
    rewrite (parseResult_decoded _ _ _ rf Hok Hdec).
    rewrite parse_after_limit; [| | |].
    2:{ subst t3. cbn [answered maxResult]. lia. }
    2:{ subst t3. cbn [answered maxResult totalLines]. lia. }
    2:{ subst t3. cbn [answered hitResult]. assumption. }
    destruct (setTargets_fields rf t3)
      as (G1 & G2 & G3 & G4 & G5 & G6 & _ & G7 & G8).
    assert (G9 : numResult (setTargets rf t3) = maxResult t).
    { rewrite G8. subst t3. cbn [answered maxResult]. rewrite P1, F1.
      destruct (Z.ltb_spec 0 (maxResult t)); [|lia].
      apply uint64_of_int_small. lia. }
    rewrite finish_page.
    2:{ rewrite G2, G9. subst t3. cbn [answered totalLines]. assumption. }
    rewrite flushRest_empty by (rewrite G3; subst t3; assumption).
    eexists. split; [reflexivity|].
    rewrite G1, G2, G3, G5, G6, G9, (emitted_ext t3) by assumption.
    subst t3. cbn [answered totalLines maxResult requests esClient script hitResult].
    replace (emitted _) with (emitted (pass r (setTargets r t)))
      by reflexivity.
    rewrite P1, F1, P4, F5, P5, P6, P7.
    unfold records. cbn [map concat]. rewrite app_nil_r.
    repeat split.
  - (* a page before that *)
    destruct Hmet as (Hne & Hlt & Hmet).
    destruct (rangeHits_below_limit (Hits_ (Hits r))
                (noteScrollID (ScrollID r) (setTargets r t)))
      as (P5 & P6); [lia | lia | lia |].
    fold (pass r (setTargets r t)) in P5, P6.
    rewrite N2, F2 in P5. rewrite N4 in P6.
    cbn [map app] in Hscript.
    rewrite (scroll_next _ _ _ (ok r2) (map ok ps ++ fin :: more))
      by congruence.
    cbn [ok res err].
    set (t3 := answered _ _ (pass r (setTargets r t))).
    destruct (IH r2 t3 fuel fin response rf more)
      as (t4 & E & I1 & I2 & I3 & I4 & I5 & I6 & I7);
      try assumption.
    + subst t3. cbn [answered maxResult]. lia.
    + subst t3. cbn [answered totalLines]. lia.
    + subst t3. cbn [answered totalLines maxResult].
      now rewrite P1, F1, P5.
    + reflexivity.
    + cbn [length] in Hfuel. lia.
    + rewrite E, finish_page by congruence.
      rewrite flushRest_empty by assumption.
      eexists. split; [reflexivity|].
      rewrite I1, I2, I3, I5, I6, I7.
      subst t3. cbn [answered maxResult requests totalLines].
      replace (emitted _) with (emitted (pass r (setTargets r t)))
        by reflexivity.
      rewrite P1, F1, P4, F5, P5, P6.
      repeat split; try assumption.
      * rewrite (records_cons r), take_app, (take_ge (Hits_ (Hits r))) by lia.
        rewrite <- app_assoc. do 3 f_equal. lia.
      * now rewrite <- app_assoc.
Qed.

End Facts.

Section Runs.

Context {source : Type} `{!Marshaler source}.

Implicit Types (t : App source) (r : result source) (c : cluster source).

Lemma encode_app (l1 l2 : list (hit source)) :
  encode (l1 ++ l2) = encode l1 ++ encode l2.
Proof. unfold encode. apply flat_map_app. Qed.

Lemma faithful_kept : kept (faithful (source := source)).
Proof.
  unfold faithful. split; try (intros; assumption).
  - intros t [Hf Hc]. unfold flushAll. rewrite flushToFile_eq.
    unfold Write. rewrite Hf. simpl. split; [reflexivity|].
    rewrite Hc, concat_app, encode_app. cbn [concat]. now rewrite app_nil_r.
  - intros t mk _ H. unfold call_cluster. now destruct (next_fetch _).
Qed.

Lemma maxResult_kept (m : Z) : kept (fun t => maxResult t = m).
Proof.
  split; try (intros; assumption).
  - intros t H. now destruct (flushAll_setup t) as (-> & _).
  - intros t mk _ H. unfold call_cluster. now destruct (next_fetch _).
Qed.

(** [run] when the search is answered. *)
Lemma run_answered fuel t f response :
  fst (next_fetch (esClient t)) = f ->
  res f = Some response -> err f = None ->
  run fuel t =
  match parseResult fuel
          (answered (snd (next_fetch (esClient t))) (EvSearch f) t) response with
  | (Done, t') => (Done, clearScroll t')
  | stopped => stopped
  end.
Proof.
  intros Hf Hr He. unfold run, search, call_cluster.
  destruct (next_fetch (esClient t)) as [f' c']. simpl in *. subst f'.
  now rewrite Hr, He.
Qed.

Lemma run_Done fuel t t' :
  run fuel t = (Done, t') ->
  exists f response,
    fst (next_fetch (esClient t)) = f /\ res f = Some response /\
    parseResult fuel
      (answered (snd (next_fetch (esClient t))) (EvSearch f) t) response
    = (Done, t').
Proof.
  unfold run, search, call_cluster.
  destruct (next_fetch (esClient t)) as [f c']. simpl.
  destruct (res f) as [response|] eqn:Hr; [|discriminate].
  destruct (err f); [discriminate|].
  destruct (parseResult _ _ _) as [[] t1] eqn:E; try discriminate.
  intros [= <-]. exists f, response. repeat split; [exact Hr | exact E].
Qed.

(** The driver never sends a clear-scroll request. *)
Lemma run_never_releases fuel m w c :
  Forall (fun e => is_release e = false)
    (requests (snd (run fuel (newApp m w c)))).
Proof.
  apply (run_kept _ no_release_kept). constructor.
Qed.

(** [t.scrollIDs], from which the clear-scroll option is built, stays
    empty. *)
Lemma run_scrollIDs_empty fuel m w c :
  scrollIDs (snd (run fuel (newApp m w c))) = [].
Proof. now apply (run_kept _ (scrollIDs_kept [])). Qed.

Lemma run_counted fuel m w c : counted (snd (run fuel (newApp m w c))).
Proof. now apply (run_kept _ counted_kept). Qed.

Lemma run_faithful fuel m c :
  faithful (snd (run fuel (newApp m (newWriter []) c))).
Proof. now apply (run_kept _ faithful_kept). Qed.

End Runs.

(** * The claims *)

Section Claims.

Context {source : Type} `{!Marshaler source}.

Implicit Types (t : App source) (r : result source) (c : cluster source).

Lemma met_in_last_served front : forall (lastp : result source) base n,
  Forall (fun p => Hits_ (Hits p) <> []) front ->
  base + Z.of_nat (length (records front)) < n <=
    base + Z.of_nat (length (records (front ++ [lastp]))) ->
  match front ++ [lastp] with
  | r :: ps => met_in_last base n r ps
  | [] => False
  end.
Proof.
  induction front as [|p front IH]; intros lastp base n Hne Hn.
  - cbn [app met_in_last]. unfold records in Hn.
    cbn [app map concat length] in Hn. rewrite app_nil_r in Hn. lia.
  - apply Forall_cons in Hne as [Hp Hne].
    cbn [app] in *. rewrite !records_cons, !length_app in Hn.
    specialize (IH lastp (base + Z.of_nat (length (Hits_ (Hits p)))) n Hne).
    destruct (front ++ [lastp]) as [|r2 ps] eqn:E.
    { destruct front; discriminate. }
    cbn [met_in_last]. split; [assumption|]. split; [lia|].
    apply IH. lia.
Qed.

Lemma walk_length (pages : list (result source)) fin :
  pages <> [] -> length (walk pages fin) = S (length pages).
Proof.
  destruct pages as [|r ps]; [congruence|]. intros _.
  unfold walk, scrolls. cbn [length]. f_equal.
  rewrite length_zip_with_l_eq; rewrite !length_map, ?length_app, ?length_map;
    cbn [length]; lia.
Qed.

(** C1, as the driver does it. With a limit [N] (0 < N < 2^63) and a
    cluster that serves non-empty pages of which the last, [lastp], holds
    the [N]th record, and that answers one more continuation request with
    a response that decodes: the run completes, exactly [N] records are
    emitted, they are the first [N] records of the pages in order (nothing
    of [lastp] after the [N]th), and the output stream holds their
    encoding.  The driver does send one continuation request after
    [lastp], the one [fin] answers; none of its records is emitted and no
    further request follows. *)
Theorem limit_run_emits_first_N
  (N : Z) (front : list (result source)) (lastp : result source)
  (fin : fetch source) (response : Response source) (rf : result source)
  (more : list (fetch source)) (ex : fetch source) (fuel : nat) :
  0 < N < 2 ^ 63 ->
  served_until N front lastp ->
  res fin = Some response -> err fin = None ->
  IsError response = false -> decode_result (Body response) = Some rf ->
  (3 * length front + 5 <= fuel)%nat ->
  exists t',
    run fuel (newApp N (newWriter [])
                {| script := map ok (front ++ [lastp]) ++ fin :: more;
                   exhausted := ex |}) = (Done, t') /\
    totalLines t' = N /\
    hitResult t' = [] /\
    concat (flushed t') = take (Z.to_nat N) (records (front ++ [lastp])) /\
    content (output t') =
      encode (take (Z.to_nat N) (records (front ++ [lastp]))) /\
    requests t' = walk (front ++ [lastp]) fin /\
    length (requests t') = S (length (front ++ [lastp])).
Proof.
  intros HN [Hne Hn] Hres Herr Hok Hdec Hfuel.
  pose proof (met_in_last_served front lastp 0 N Hne) as Hmet.
  assert (Hlen : length (front ++ [lastp]) = S (length front))
    by (rewrite length_app; cbn [length]; lia).
  destruct (front ++ [lastp]) as [|r ps] eqn:E; [discriminate|].
  cbn [length] in Hlen.
  specialize (Hmet ltac:(lia)).
  set (c0 := {| script := map ok (r :: ps) ++ fin :: more; exhausted := ex |}).
  set (t0 := newApp N (newWriter []) c0).
  pose proof (run_faithful fuel N c0) as Hfaith.
  fold t0 in Hfaith.
  rewrite (run_answered fuel t0 (ok r) (ok_response r)) in *
    by reflexivity.
  destruct (limited_pages ps r
              (answered (snd (next_fetch (esClient t0))) (EvSearch (ok r)) t0)
              fuel fin response rf more)
    as (t' & E' & I1 & I2 & I3 & I4 & I5 & I6 & I7);
    try assumption; try (cbn; lia); try reflexivity.
  rewrite E' in *. cbn [snd] in Hfaith.
  exists t'. split; [reflexivity|].
  assert (Hcat : concat (flushed t') = take (Z.to_nat N) (records (r :: ps))).
  { unfold emitted in I5. rewrite I4, app_nil_r in I5. rewrite I5.
    cbn. now rewrite Z.sub_0_r. }
  destruct Hfaith as [_ Hcontent].
  change (clearScroll t') with t' in Hcontent.
  repeat split; try assumption.
  - now rewrite Hcontent, Hcat.
  - rewrite I6.
    change (length (walk (r :: ps) fin) = S (length (r :: ps))).
    now rewrite walk_length.
Qed.

(** The total stored when a run completes is the one the latest response
    reported. *)
Lemma run_latest_total fuel m w c t' :
  run fuel (newApp m w c) = (Done, t') ->
  exists es e, requests t' = es ++ [e] /\ reported e = Some (queryResult t').
Proof.
  intros H. apply run_Done in H as (f & response & Hf & Hres & H).
  apply (proj1 (latest_driver fuel)) in H as (r & es & Hdec & Hreq & Hlast).
  cbn [answered requests newApp app] in Hreq.
  unfold latest_total in Hlast.
  destruct (last es) as [e|] eqn:El.
  - apply last_Some in El as (es' & ->).
    exists (EvSearch f :: es'), e. now rewrite Hreq.
  - apply last_None in El as ->.
    exists [], (EvSearch f). split; [assumption|].
    cbn [reported]. rewrite Hres, Hdec. congruence.
Qed.

(** C4, as the driver does it. [parseResult] stores the reported total of
    every page it decodes (line 321), the first one or a later one: when a
    run completes, the stored total is the one reported by the latest
    response the cluster sent, whatever the first page reported. *)
Theorem stored_total_is_latest fuel m w c t' :
  run fuel (newApp m w c) = (Done, t') ->
  exists es e,
    requests t' = es ++ [e] /\
    reported e = Some (queryResult t').
Proof. apply run_latest_total. Qed.

(** C6, as the driver does it. Without a limit, when the run completes
    and the first page either reports no match or holds a record, the
    count of emitted records equals the stored total, which is the total
    the latest response reported (the first page's total when the cluster
    reports the same total on every page). *)
Theorem unlimited_run_count fuel m w c t' response r1 :
  m <= 0 ->
  run fuel (newApp m w c) = (Done, t') ->
  res (fst (next_fetch c)) = Some response ->
  decode_result (Body response) = Some r1 ->
  Total (Hits r1) = 0 \/ (0 <= Total (Hits r1) /\ Hits_ (Hits r1) <> []) ->
  totalLines t' = queryResult t' /\
  exists es e, requests t' = es ++ [e] /\ reported e = Some (totalLines t').
Proof.
  intros Hm H Hres Hdec Hfirst.
  assert (Hq : totalLines t' = queryResult t').
  { apply run_Done in H as (f & response' & Hf & Hres' & H).
    cbn [newApp esClient] in Hf. subst f.
    rewrite Hres in Hres'. injection Hres' as <-.
    apply (proj1 (unlimited_driver fuel)) in H as (H1 & H2 & H3).
    - destruct H3 as [(r & Hr & -> & Hg)|[_ H3]]; [|congruence].
      assert (r = r1) by congruence. subst r.
      set (t0 := answered _ _ (newApp m w c)) in *.
      destruct (setTargets_fields r1 t0)
        as (_ & -> & _ & _ & _ & _ & _ & -> & F8).
      rewrite F8 in Hg. subst t0.
      cbn [answered maxResult newApp totalLines] in *.
      destruct (Z.ltb_spec 0 m); [lia|].
      destruct Hfirst as [->|[Hpos Hne]]; [reflexivity|].
      destruct (Hits_ (Hits r1)); [congruence|].
      cbn [length Nat.ltb Nat.leb] in Hg. rewrite andb_true_r in Hg.
      apply Z.ltb_ge in Hg. lia.
    - cbn. lia.
    - split; [cbn [answered hitResult newApp length]; unfold FLUSHBUFFER; lia|].
      constructor. }
  split; [assumption|]. rewrite Hq. now apply (run_latest_total fuel m w c).
Qed.

(** X17. Without a limit and over a cluster that serves non-empty pages, all
    reporting the total [T] of their records, and then an empty page: the
    run completes with every record emitted once, in order. *)
Lemma unlimited_run_complete
  (r : result source) (ps : list (result source)) (fin : result source)
  (more : list (fetch source)) (ex : fetch source) (m T : Z) (fuel : nat) :
  m <= 0 ->
  Forall (fun p => Hits_ (Hits p) <> [] /\ Total (Hits p) = T) (r :: ps) ->
  Z.of_nat (length (records (r :: ps))) = T -> T < 2 ^ 64 ->
  Hits_ (Hits fin) = [] -> Total (Hits fin) = T ->
  (3 * length ps + 4 <= fuel)%nat ->
  exists t',
    run fuel (newApp m (newWriter [])
                {| script := map ok (r :: ps) ++ ok fin :: more;
                   exhausted := ex |}) = (Done, t') /\
    totalLines t' = T /\
    hitResult t' = [] /\
    concat (flushed t') = records (r :: ps) /\
    content (output t') = encode (records (r :: ps)) /\
    requests t' = walk (r :: ps) (ok fin).
Proof.
  intros Hm Hall Hsum HT Hfin HfinT Hfuel.
  set (c0 := {| script := map ok (r :: ps) ++ ok fin :: more; exhausted := ex |}).
  set (t0 := newApp m (newWriter []) c0).
  pose proof (run_faithful fuel m c0) as Hfaith. fold t0 in Hfaith.
  rewrite (run_answered fuel t0 (ok r) (ok_response r)) in * by reflexivity.
  set (t1 := answered (snd (next_fetch (esClient t0))) (EvSearch (ok r)) t0)
    in *.
  destruct (unlimited_pages ps r t1 fuel T fin more)
    as (t' & E' & I1 & I2 & I3 & I4 & I5 & I6);
    try assumption; try (cbn; lia); try reflexivity.
  pose proof E' as Hshape.
  apply (proj1 (unlimited_driver fuel)) in Hshape as (_ & _ & Hshape);
    [| cbn; lia
     | split; [cbn [t1 t0 answered hitResult newApp length]; unfold FLUSHBUFFER; lia
              | constructor]].
  assert (Hbuf : hitResult t' = []).
  { destruct Hshape as [(r' & Hr' & -> & _)|[[Hb _] _]]; [|assumption].
    now destruct (setTargets_fields r' t1) as (_ & _ & -> & _). }
  rewrite E' in *. cbn [snd] in Hfaith.
  change (clearScroll t') with t' in Hfaith. destruct Hfaith as [_ Hcontent].
  assert (Hcat : concat (flushed t') = records (r :: ps)).
  { unfold emitted in I4. now rewrite Hbuf, app_nil_r in I4. }
  exists t'. repeat split; try assumption.
  now rewrite Hcontent, Hcat.
Qed.

(** C7, as the driver does it. Without a limit, when the run completes
    the buffer is empty and the flushes were all of a full buffer of 1000
    records except at most the last, which took the 1 to 999 records left
    at the end: for [n] records emitted that is [(n + 999) / 1000] calls,
    so 1, 2 and 1 calls for 1000, 1001 and 999 records.  (With a limit the
    driver flushes once more when the limit is met.) *)
Theorem unlimited_run_flushes fuel m w c t' :
  m <= 0 ->
  run fuel (newApp m w c) = (Done, t') ->
  hitResult t' = [] /\
  shaped (flushed t') /\
  length (flushed t') =
    ((length (concat (flushed t')) + 999) / FLUSHBUFFER)%nat /\
  totalLines t' = Go.wrap64 (Z.of_nat (length (concat (flushed t')))).
Proof.
  intros Hm H.
  pose proof (run_counted fuel m w c) as Hcount. rewrite H in Hcount.
  cbn [snd] in Hcount.
  apply run_Done in H as (f & response & Hf & Hres & H).
  apply (proj1 (unlimited_driver fuel)) in H as (_ & _ & H);
    [| cbn; lia
     | split; [cbn [answered hitResult newApp length]; unfold FLUSHBUFFER; lia
              | constructor]].
  assert (Hs : settled t').
  { destruct H as [(r & _ & -> & _)|[H _]]; [|assumption].
    destruct (setTargets_fields r
                (answered (snd (next_fetch (esClient (newApp m w c))))
                   (EvSearch f) (newApp m w c)))
      as (_ & _ & F3 & F4 & _).
    split; [now rewrite F3|]. rewrite F4. exists [], []. auto. }
  destruct Hs as [Hb Hsh].
  repeat split; try assumption.
  - now apply shaped_count.
  - unfold counted, emitted in Hcount. now rewrite Hb, app_nil_r in Hcount.
Qed.

(** C8, as the driver does it. [flushToFile] drops the result of
    [Write]: whether writes fail or not, a run ends the same way and in
    the same state but for the stream itself, so a failed write does not
    stop the run. *)
Theorem write_errors_ignored fuel m (fs : list (option nat)) c :
  fst (run fuel (newApp m (newWriter fs) c)) =
    fst (run fuel (newApp m (newWriter []) c)) /\
  same_but_output (snd (run fuel (newApp m (newWriter fs) c)))
                  (snd (run fuel (newApp m (newWriter []) c))).
Proof. apply run_same_but_output. repeat split. Qed.

(** C9, as the driver does it. A record whose payload [json.Marshal]
    rejects contributes an empty line to the flush (the newline is written
    without the encoding); the flush goes on, and the records before and
    after it are written as usual. *)
Theorem unmarshalable_record_leaves_empty_line t
  (hs1 hs2 : list (hit source)) (v : hit source) :
  Marshal (Source v) = None ->
  faults (output t) = [] ->
  content (output (flushToFile t (hs1 ++ v :: hs2))) =
    content (output t) ++ encode hs1 ++ [newline] ++ encode hs2.
Proof.
  intros Hv Hf. rewrite flushToFile_eq. unfold Write. rewrite Hf.
  cbn [fst set_flushed set_output output content].
  rewrite encode_app. unfold encode at 2. cbn [flat_map].
  unfold line_of at 1. now rewrite Hv.
Qed.

(** When the client returns no response and an error, [search] panics at
    [defer res.Body.Close()] (line 293) before it looks at the error. *)
Lemma search_transport_error_panics fuel m w e
  (rest : list (fetch source)) (ex : fetch source) :
  fst (run fuel (newApp m w {| script := transport_error e :: rest;
                               exhausted := ex |})) = Panic.
Proof. reflexivity. Qed.

(** Likewise [scroll] at line 269. *)
Lemma scroll_transport_error_panics fuel t id e
  (rest : list (fetch source)) :
  script (esClient t) = transport_error e :: rest ->
  fst (scroll (S fuel) t id) = Panic.
Proof. intros H. now rewrite (scroll_next _ _ _ _ _ H). Qed.

End Claims.

(** * The claims on concrete runs *)

Lemma scroll_exhausted {source} `{!Marshaler source} fuel
  (t : App source) id r :
  esClient t = {| script := []; exhausted := ok r |} ->
  scroll (S fuel) t id =
  parseResult fuel (answered (esClient t) (EvScroll id (ok r)) t)
    (ok_response r).
Proof.
  intros H. simpl. unfold call_cluster, next_fetch. rewrite H. reflexivity.
Qed.

Lemma even_wrap64 z : z mod 2 = 0 -> Go.wrap64 (z + 2) mod 2 = 0.
Proof.
  intros H. unfold Go.wrap64.
  rewrite Z.mod_mod_divide by (exists (2 ^ 63); reflexivity).
  rewrite Z.add_mod, H by lia. reflexivity.
Qed.

(** On [short_cluster] the loop of the first page never ends: every pass
    adds the two records of that page again, the count stays even and the
    target is 5. *)
Lemma short_cluster_loops fuel : forall t,
  short_stuck t -> fst (pageLoop fuel t short_first) = OutOfFuel.
Proof.
  induction fuel as [|fuel IH]; intros t (Hm & Hn & (Hc & Hev) & Hcl);
    [reflexivity|].
  rewrite pageLoop_S.
  destruct (Z.eqb_spec (totalLines t) (numResult t)) as [E|_].
  { rewrite Hn in E. rewrite E in Hev. discriminate. }
  fold (pass short_first t).
  destruct (pass_setup short_first t) as (P1 & P2 & P3 & _).
  destruct (noteScrollID_fields (ScrollID short_first) t)
    as (N1 & N2 & _).
  destruct (rangeHits_unlimited (Hits_ (Hits short_first))
              (noteScrollID (ScrollID short_first) t)) as (P5 & _);
    [lia | lia |].
  fold (pass short_first t) in P5. rewrite N2 in P5.
  cbn [short_first Hits Hits_ length Z.of_nat Pos.of_succ_nat Pos.succ] in P5.
  destruct fuel as [|fuel]; [reflexivity|].
  rewrite (scroll_exhausted _ _ _ short_empty) by congruence.
  destruct fuel as [|fuel]; [reflexivity|].
  rewrite parseResult_ok.
  cbn [short_empty Hits Hits_ length Nat.ltb Nat.leb]. rewrite andb_false_r.
  apply IH.
  set (t3 := answered _ _ (pass short_first t)).
  destruct (setTargets_fields short_empty t3)
    as (F1 & F2 & _ & _ & _ & F6 & _ & _ & F8).
  unfold short_stuck. rewrite F1, F2, F6, F8. subst t3.
  cbn [answered maxResult totalLines esClient short_empty Hits Total].
  rewrite P1, Hm, P3, P5. cbn [Z.ltb Z.compare].
  repeat split; try assumption; try apply wrap64_range.
  now apply even_wrap64.
Qed.

(** C2, on [short_cluster]: the first page holds two records and announces
    five, and every later fetch returns a page without records.  The run
    never completes, whatever the fuel: after each empty page the loop of
    the first page runs again on the same two records. *)
Theorem empty_page_does_not_end_the_run :
  (forall fuel,
     fst (run fuel (newApp 0 (newWriter []) short_cluster)) = OutOfFuel) /\
  map Source (emitted (snd (run 5 (newApp 0 (newWriter []) short_cluster))))
    = [Num 1; Num 2; Num 1; Num 2; Num 1; Num 2].
Proof.
  split; [|vm_compute; reflexivity].
  intros fuel.
  rewrite (run_answered fuel _ (ok short_first) (ok_response short_first))
    by reflexivity.
  destruct fuel as [|fuel]; [reflexivity|].
  rewrite parseResult_ok.
  set (t1 := setTargets short_first _).
  assert (H : short_stuck t1) by (vm_compute; repeat split; congruence).
  apply (short_cluster_loops fuel) in H.
  change ((0 <? numResult t1) && Nat.ltb 0 (length (Hits_ (Hits short_first))))
    with true.
  cbv iota.
  destruct (pageLoop fuel t1 short_first) as [o t2]. simpl in H. subst o.
  reflexivity.
Qed.

(** ** C1 *)

(** C1 fails as stated: with the limit 1 and the first record in the first
    page of [two_pages], the run emits one record and still sends a
    continuation request after that page. *)
Lemma limit_run_fetches_once_more :
  let out := run 10 (newApp 1 (newWriter []) two_pages) in
  fst out = Done /\
  totalLines (snd out) = 1 /\
  requests (snd out) =
    [EvSearch (page "s1" 3 [hit_of 1; hit_of 2]);
     EvScroll "s1" (page "s2" 3 [hit_of 3])].
Proof. vm_compute. repeat split. Qed.

Lemma limit_run_emits_first_N_witness :
  exists t',
    run 8 (newApp 2 (newWriter [])
             {| script :=
                  map ok ([ {| ScrollID := "s1";
                               Hits := {| Total := 3; Hits_ := [hit_of 1] |} |} ]
                          ++ [ {| ScrollID := "s2";
                                  Hits := {| Total := 3;
                                             Hits_ := [hit_of 2; hit_of 3] |} |} ])
                  ++ page "s3" 3 [] :: [];
                exhausted := page "s3" 3 [] |}) = (Done, t') /\
    totalLines t' = 2 /\
    hitResult t' = [] /\
    concat (flushed t') =
      take (Z.to_nat 2)
        (records ([ {| ScrollID := "s1";
                       Hits := {| Total := 3; Hits_ := [hit_of 1] |} |} ]
                  ++ [ {| ScrollID := "s2";
                          Hits := {| Total := 3;
                                     Hits_ := [hit_of 2; hit_of 3] |} |} ])) /\
    content (output t') =
      encode
        (take (Z.to_nat 2)
           (records ([ {| ScrollID := "s1";
                          Hits := {| Total := 3; Hits_ := [hit_of 1] |} |} ]
                     ++ [ {| ScrollID := "s2";
                             Hits := {| Total := 3;
                                        Hits_ := [hit_of 2; hit_of 3] |} |} ]))) /\
    requests t' =
      walk ([ {| ScrollID := "s1";
                 Hits := {| Total := 3; Hits_ := [hit_of 1] |} |} ]
            ++ [ {| ScrollID := "s2";
                    Hits := {| Total := 3;
                               Hits_ := [hit_of 2; hit_of 3] |} |} ])
        (page "s3" 3 []) /\
    length (requests t') =
      S (length ([ {| ScrollID := "s1";
                      Hits := {| Total := 3; Hits_ := [hit_of 1] |} |} ]
                 ++ [ {| ScrollID := "s2";
                         Hits := {| Total := 3;
                                    Hits_ := [hit_of 2; hit_of 3] |} |} ])).
Proof.
  apply (limit_run_emits_first_N 2 _ _ (page "s3" 3 [])
           (ok_response {| ScrollID := "s3";
                           Hits := {| Total := 3; Hits_ := [] |} |})
           {| ScrollID := "s3"; Hits := {| Total := 3; Hits_ := [] |} |}).
  - lia.
  - split; [repeat constructor; discriminate | simpl; lia].
  - reflexivity.
  - reflexivity.
  - reflexivity.
  - reflexivity.
  - simpl. lia.
Defined.

(** ** C3 *)

(** C3, on [two_pages]: the run completes having seen the scroll ids [s1]
    and [s2], and no clear-scroll request was sent; [t.scrollIDs], from
    which [clearScroll] builds its option, is empty.  No run ever sends
    such a request. *)
Theorem scroll_ids_never_released :
  (let out := run 20 (newApp 0 (newWriter []) two_pages) in
   fst out = Done /\
   elements (sIDs (snd out)) = ["s1"; "s2"]%string /\
   scrollIDs (snd out) = [] /\
   filter (fun e => is_release e = true) (requests (snd out)) = []) /\
  (forall fuel m w (c : cluster doc),
     Forall (fun e => is_release e = false)
       (requests (snd (run fuel (newApp m w c))))).
Proof.
  split; [vm_compute; repeat split | intros; apply run_never_releases].
Qed.

(** ** C4 *)

(** C4 fails as stated: on [changing_total] the first page reports 3 and
    the continuation page reports 2; after the run the stored total is 2. *)
Lemma stored_total_overwritten :
  let out := run 20 (newApp 0 (newWriter []) changing_total) in
  fst out = Done /\
  head (requests (snd out)) ≫= reported = Some 3 /\
  queryResult (snd out) = 2.
Proof. vm_compute. repeat split. Qed.

Lemma stored_total_is_latest_witness :
  exists es e,
    requests (snd (run 20 (newApp 0 (newWriter []) two_pages))) = es ++ [e] /\
    reported e =
      Some (queryResult (snd (run 20 (newApp 0 (newWriter []) two_pages)))).
Proof.
  apply (stored_total_is_latest 20 0 (newWriter []) two_pages
           (snd (run 20 (newApp 0 (newWriter []) two_pages)))).
  vm_compute. reflexivity.
Defined.

(** ** C5 *)

(** C5, on [three_docs] with the limit 10: the cluster holds three
    distinct records, serves them in one page and then serves empty pages.
    The run completes with 10 records emitted; the lines of the output,
    parsed back, are the three records over and over. *)
Theorem short_source_is_emitted_again :
  let out := run 20 (newApp 10 (newWriter []) three_docs) in
  fst out = Done /\
  totalLines (snd out) = 10 /\
  map doc_Unmarshal (split_lines (content (output (snd out)))) =
    map Some [Num 1; Num 2; Num 3; Num 1; Num 2; Num 3;
              Num 1; Num 2; Num 3; Num 1].
Proof. vm_compute. repeat split. Qed.

(** ** C6 *)

(** C6 fails as stated: on [empty_first] the first page reports 5 matches
    and holds no record; the run completes with nothing emitted. *)
Lemma empty_first_page_emits_nothing :
  let out := run 20 (newApp 0 (newWriter []) empty_first) in
  fst out = Done /\
  head (requests (snd out)) ≫= reported = Some 5 /\
  totalLines (snd out) = 0.
Proof. vm_compute. repeat split. Qed.

Lemma unlimited_run_count_witness :
  totalLines (snd (run 20 (newApp 0 (newWriter []) two_pages))) =
    queryResult (snd (run 20 (newApp 0 (newWriter []) two_pages))) /\
  exists es e,
    requests (snd (run 20 (newApp 0 (newWriter []) two_pages))) = es ++ [e] /\
    reported e =
      Some (totalLines (snd (run 20 (newApp 0 (newWriter []) two_pages)))).
Proof.
  apply (unlimited_run_count 20 0 (newWriter []) two_pages
           (snd (run 20 (newApp 0 (newWriter []) two_pages)))
           (ok_response {| ScrollID := "s1";
                           Hits := {| Total := 3;
                                      Hits_ := [hit_of 1; hit_of 2] |} |})
           {| ScrollID := "s1";
              Hits := {| Total := 3; Hits_ := [hit_of 1; hit_of 2] |} |}).
  - lia.
  - vm_compute. reflexivity.
  - reflexivity.
  - reflexivity.
  - right. split; [simpl; lia | discriminate].
Defined.

(** ** C7 *)

(** C7 fails as stated: with the limit 1000 and a page of 1000 records the
    run emits exactly 1000 records in two flush calls, the second of an
    empty buffer when the limit is met. *)
Lemma limit_1000_flushes_twice :
  let out := run 20 (newApp 1000 (newWriter []) (one_page 1000)) in
  fst out = Done /\
  totalLines (snd out) = 1000 /\
  map (@length _) (flushed (snd out)) = [1000; 0]%nat.
Proof. vm_compute. repeat split. Qed.

Lemma unlimited_run_flushes_witness :
  hitResult (snd (run 20 (newApp 0 (newWriter []) (one_page 1001)))) = [] /\
  shaped (flushed (snd (run 20 (newApp 0 (newWriter []) (one_page 1001))))) /\
  length (flushed (snd (run 20 (newApp 0 (newWriter []) (one_page 1001))))) =
    ((length (concat (flushed
        (snd (run 20 (newApp 0 (newWriter []) (one_page 1001)))))) + 999)
     / FLUSHBUFFER)%nat /\
  totalLines (snd (run 20 (newApp 0 (newWriter []) (one_page 1001)))) =
    Go.wrap64 (Z.of_nat (length (concat (flushed
      (snd (run 20 (newApp 0 (newWriter []) (one_page 1001)))))))).
Proof.
  apply (unlimited_run_flushes 20 0 (newWriter []) (one_page 1001)).
  - lia.
  - vm_compute. reflexivity.
Defined.

(** Without a limit, runs of 1000, 1001 and 999 records flush 1, 2 and 1
    times. *)
Example flushes_of_1000_1001_999 :
  map (fun n => length (flushed (snd (run 20 (newApp 0 (newWriter [])
                                                (one_page n))))))
    [1000; 1001; 999]%nat = [1; 2; 1]%nat.
Proof. vm_compute. reflexivity. Qed.

(** ** C8 *)

(** C8 fails as stated: with a stream whose first write returns an error
    after one byte, the run on [two_pages] completes; the one write it
    made failed. *)
Lemma failed_write_run_completes :
  let out := run 20 (newApp 0 (newWriter [Some 1%nat]) two_pages) in
  fst out = Done /\
  map snd (attempts (output (snd out))) = [false].
Proof. vm_compute. repeat split. Qed.

(** ** C9 *)

(** C9 fails as stated: flushing a buffer that holds one record that
    cannot be serialized writes a newline for it. *)
Lemma unmarshalable_record_writes_newline :
  content (output (flushToFile (newApp 0 (newWriter []) unreachable)
                     [{| Source := Chan |}])) = [newline].
Proof. reflexivity. Qed.

Lemma unmarshalable_record_leaves_empty_line_witness :
  content (output (flushToFile (newApp 0 (newWriter []) unreachable)
                     ([hit_of 1] ++ {| Source := Chan |} :: [hit_of 2]))) =
  content (output (newApp 0 (newWriter []) unreachable)) ++
  encode [hit_of 1] ++ [newline] ++ encode [hit_of 2].
Proof.
  apply (unmarshalable_record_leaves_empty_line
           (newApp 0 (newWriter []) unreachable) [hit_of 1] [hit_of 2]
           {| Source := Chan |}).
  - reflexivity.
  - reflexivity.
Defined.

(** ** C10 *)

(** C10, when the client returns no response and an error: the run panics
    at [defer res.Body.Close()], in [search] (line 293) when the first
    call fails and in [scroll] (line 269) when a later one does, before
    the check of [err] and its [log.Fatalf]. *)
Theorem fetch_error_panics :
  (forall fuel m w, fst (run fuel (newApp m w unreachable)) = Panic) /\
  fst (run 20 (newApp 0 (newWriter [])
                 {| script := [page "s1" 3 [hit_of 1; hit_of 2]];
                    exhausted := transport_error "timeout" |})) = Panic.
Proof. split; [intros; reflexivity | vm_compute; reflexivity]. Qed.

(** * Further properties of the driver *)

Section Turns.

Context {source : Type} `{!Marshaler source}.

Implicit Types (t : App source) (r : result source) (c : cluster source).

(** A property kept by every turn holds wherever the driver stops. *)
Lemma turns_driver I (K : kept_by_turns I) fuel :
  (forall t response, I t -> I (snd (parseResult fuel t response))) /\
  (forall t r, I t -> I (snd (pageLoop fuel t r))) /\
  (forall t id, I t -> I (snd (scroll fuel t id))).
Proof.
  destruct K as [Kset Kpass Kflush Kcall].
  induction fuel as [|fuel (IHp & IHl & IHs)].
  { repeat split; intros; assumption. }
  split; [|split].
  - intros t response Ht. simpl.
    destruct (IsError response); [destruct (Body response); assumption|].
    destruct (decode_result _) as [r|]; [|assumption].
    destruct (_ && _); [|now apply Kset].
    pose proof (IHl _ r (Kset t r Ht)) as H1.
    destruct (pageLoop fuel _ r) as [[] t1]; simpl in *; auto.
  - intros t r Ht. rewrite pageLoop_S.
    destruct (Z.eqb_spec (totalLines t) (numResult t)) as [E|E];
      [assumption|].
    fold (pass r t).
    pose proof (IHs _ (ScrollID r) (Kpass t r Ht E)) as H1.
    destruct (scroll fuel _ _) as [[] t1]; simpl in *; auto.
  - intros t id Ht. simpl. unfold call_cluster.
    destruct (next_fetch (esClient t)) as [f c].
    pose proof (Kcall t c (EvScroll id f) eq_refl Ht) as H1.
    destruct (res f) as [response|]; [|assumption].
    destruct (err f); [assumption|]. now apply IHp.
Qed.

Lemma turns_run I (K : kept_by_turns I) fuel t : I t -> I (snd (run fuel t)).
Proof.
  intros Ht. unfold run, search, call_cluster.
  destruct (next_fetch (esClient t)) as [f c].
  pose proof (turn_answered I K t c (EvSearch f) eq_refl Ht) as H1.
  destruct (res f) as [response|]; [|assumption].
  destruct (err f); [assumption|].
  pose proof (proj1 (turns_driver I K fuel) _ response H1) as H2.
  destruct (parseResult fuel _ response) as [[] t']; assumption.
Qed.

Lemma pass_emitted_unlimited r t :
  0 <= totalLines t ->
  totalLines t + Z.of_nat (length (Hits_ (Hits r))) < maxResult t ->
  maxResult t < 2 ^ 63 ->
  totalLines (pass r t) = totalLines t + Z.of_nat (length (Hits_ (Hits r))) /\
  emitted (pass r t) = emitted t ++ Hits_ (Hits r).
Proof.
  intros Hc Hlt Hm. unfold pass.
  destruct (noteScrollID_fields (ScrollID r) t) as (N1 & N2 & _).
  destruct (rangeHits_below_limit (Hits_ (Hits r))
              (noteScrollID (ScrollID r) t)) as (H1 & H2);
    [lia | lia | lia |].
  now rewrite H1, H2, N2, pass_emitted_base.
Qed.

Lemma within_limit_turns N :
  0 < N < 2 ^ 63 -> kept_by_turns (within_limit (source := source) N).
Proof.
  intros HN. split.
  - intros t r (Hm & Hc & Hle & _).
    destruct (setTargets_fields r t)
      as (F1 & F2 & F3 & F4 & _ & _ & _ & _ & F8).
    unfold within_limit.
    rewrite F1, F2, F8, (emitted_ext t (setTargets r t) F3 F4), Hm.
    repeat split; try assumption. left.
    destruct (Z.ltb_spec 0 N); [|lia]. apply uint64_of_int_small. lia.
  - intros t r (Hm & Hc & Hle & Hn) Hne.
    destruct Hn as [Hn|Hn]; [|congruence].
    destruct (pass_setup r t) as (P1 & P2 & _).
    unfold within_limit. rewrite P1, P2.
    destruct (Z.lt_ge_cases (totalLines t + Z.of_nat (length (Hits_ (Hits r))))
                (maxResult t)) as [Hlt|Hge].
    + destruct (pass_emitted_unlimited r t) as (H1 & H2); [lia | lia | lia |].
      rewrite H1, H2, length_app. repeat split; try assumption; lia.
    + unfold pass.
      destruct (noteScrollID_fields (ScrollID r) t) as (N1 & N2 & _).
      destruct (rangeHits_at_limit (Hits_ (Hits r))
                  (noteScrollID (ScrollID r) t)) as (H1 & _ & H3);
        [lia | lia | lia |].
      rewrite H1, H3, N1, N2, pass_emitted_base, length_app, length_take.
      repeat split; try assumption; lia.
  - intros t (Hm & Hc & Hle & Hn).
    destruct (flushRest_setup t) as (S1 & _ & S3 & _).
    unfold within_limit.
    now rewrite S1, S3, flushRest_totalLines, flushRest_emitted.
  - intros t c e _ H. exact H.
Qed.

(** X1. With a limit [N], however the cluster answers and however the run
    ends, the counter is the number of records taken so far and never
    exceeds [N]; so no more than [N] records are handed to the sink. *)
Theorem limit_never_exceeded fuel N w c :
  0 < N < 2 ^ 63 ->
  totalLines (snd (run fuel (newApp N w c))) =
    Z.of_nat (length (emitted (snd (run fuel (newApp N w c))))) /\
  totalLines (snd (run fuel (newApp N w c))) <= N /\
  Z.of_nat (length (concat (flushed (snd (run fuel (newApp N w c)))))) <= N.
Proof.
  intros HN.
  assert (H : within_limit N (snd (run fuel (newApp N w c)))).
  { apply (turns_run _ (within_limit_turns N HN)).
    repeat split; [simpl; lia | now right]. }
  destruct H as (_ & Hc & Hle & _).
  repeat split; try assumption.
  unfold emitted in Hc. rewrite length_app in Hc. lia.
Qed.

Lemma flushAll_bounded t : bounded_buffer t -> bounded_buffer (flushAll t).
Proof.
  intros [Hlen Hfl].
  destruct (flushAll_counters t) as (_ & Hb & Hf).
  split; [rewrite Hb; unfold FLUSHBUFFER; simpl; lia|].
  rewrite Hf. apply Forall_app. split; [assumption|].
  constructor; [lia | constructor].
Qed.

Lemma step_bounded v t :
  bounded_buffer t -> bounded_buffer (flushIfFull (appendHit v t)).
Proof.
  intros [Hlen Hfl]. unfold flushIfFull.
  destruct (Nat.eqb_spec (length (hitResult (appendHit v t))) FLUSHBUFFER)
    as [E|E].
  - destruct (flushAll_counters (appendHit v t)) as (_ & Hb & Hf).
    split; [rewrite Hb; unfold FLUSHBUFFER; simpl; lia|].
    rewrite Hf. apply Forall_app. split; [assumption|].
    constructor; [lia | constructor].
  - split; [|assumption].
    simpl in *. rewrite length_app in *. simpl in *. lia.
Qed.

Lemma rangeHits_bounded vs : forall t,
  bounded_buffer t -> bounded_buffer (rangeHits t vs).
Proof.
  induction vs as [|v vs IH]; intros t Hb; [assumption|].
  rewrite rangeHits_cons.
  pose proof (step_bounded v t Hb) as H1.
  destruct (limitHit _); [now apply flushAll_bounded | now apply IH].
Qed.

Lemma bounded_buffer_ext t t' :
  hitResult t' = hitResult t -> flushed t' = flushed t ->
  bounded_buffer t -> bounded_buffer t'.
Proof. unfold bounded_buffer. now intros -> ->. Qed.

Lemma bounded_buffer_turns : kept_by_turns (bounded_buffer (source := source)).
Proof.
  split.
  - intros t r H.
    destruct (setTargets_fields r t) as (_ & _ & F3 & F4 & _).
    now apply (bounded_buffer_ext t).
  - intros t r H _. unfold pass. apply rangeHits_bounded.
    destruct (noteScrollID_fields (ScrollID r) t) as (_ & _ & N3 & N4 & _).
    now apply (bounded_buffer_ext t).
  - intros t H. unfold flushRest.
    destruct (Nat.ltb 0 (length (hitResult t)));
      [now apply flushAll_bounded | assumption].
  - intros t c e _ H. exact H.
Qed.

(** X2. Whatever the limit, the cluster and the way the run ends: the
    buffer holds fewer than 1000 records between two steps of the driver,
    and no flush ever hands more than 1000 records to the sink. *)
Theorem buffer_stays_bounded fuel m w c :
  (length (hitResult (snd (run fuel (newApp m w c)))) < FLUSHBUFFER)%nat /\
  Forall (fun chunk => (length chunk <= FLUSHBUFFER)%nat)
    (flushed (snd (run fuel (newApp m w c)))).
Proof.
  apply (turns_run _ bounded_buffer_turns).
  split; [unfold FLUSHBUFFER; simpl; lia | constructor].
Qed.

Lemma logged_kept : kept (logged (source := source)).
Proof.
  unfold logged. split; try (intros; assumption).
  - intros t Ha. unfold flushAll. rewrite flushToFile_eq.
    unfold Write.
    destruct (faults (output t)) as [|[n|] fs];
      cbn [fst set_hitResult set_flushed set_output output flushed attempts];
      rewrite !map_app, Ha; reflexivity.
  - intros t mk _ H. unfold call_cluster. now destruct (next_fetch _).
Qed.

Lemma unfailing_kept : kept (unfailing (source := source)).
Proof.
  unfold unfailing. split; try (intros; assumption).
  - intros t [Hf Hc]. unfold flushAll. rewrite flushToFile_eq.
    unfold Write.
    destruct (faults (output t)) as [|[n|] fs];
      cbn [fst set_hitResult set_flushed set_output output flushed faults
           content tail].
    + split; [constructor|].
      rewrite Hc, concat_app, encode_app. cbn [concat].
      now rewrite app_nil_r.
    + apply Forall_cons in Hf as [Hn _]. discriminate.
    + apply Forall_cons in Hf as [_ Hf]. split; [assumption|].
      rewrite Hc, concat_app, encode_app. cbn [concat].
      now rewrite app_nil_r.
  - intros t mk _ H. unfold call_cluster. now destruct (next_fetch _).
Qed.

(** X3. Whichever writes fail, the stream is written exactly once per
    [flushToFile] call, in order, each time with the encoding of that
    call's records: a flush whose write failed is not written again.  When
    no write fails, the stream holds the encoding of all the records
    flushed, in the order of the flushes. *)
Theorem sink_is_written_once_per_flush fuel m (fs : list (option nat)) c :
  map fst (attempts (output (snd (run fuel (newApp m (newWriter fs) c))))) =
    map encode (flushed (snd (run fuel (newApp m (newWriter fs) c)))) /\
  (Forall (fun f => f = None) fs ->
   content (output (snd (run fuel (newApp m (newWriter fs) c)))) =
     encode (concat (flushed (snd (run fuel (newApp m (newWriter fs) c)))))).
Proof.
  split.
  - apply (run_kept _ logged_kept). reflexivity.
  - intros Hfs. apply (run_kept _ unfailing_kept). split; [assumption|reflexivity].
Qed.

End Turns.

Section Completed.

Context {source : Type} `{!Marshaler source}.

Implicit Types (t : App source) (r : result source) (c : cluster source).

Lemma scroll_ids_app (es1 es2 : list (event source)) :
  scroll_ids (es1 ++ es2) = scroll_ids es1 ++ scroll_ids es2.
Proof. unfold scroll_ids. apply omap_app. Qed.

Lemma scroll_ids_scroll id f (es : list (event source)) :
  scroll_ids (EvScroll id f :: es) = id :: scroll_ids es.
Proof. reflexivity. Qed.

Lemma pass_sIDs r t : sIDs (pass r t) = {[ScrollID r]} ∪ sIDs t.
Proof.
  unfold pass.
  destruct (rangeHits_setup (Hits_ (Hits r)) (noteScrollID (ScrollID r) t))
    as (_ & _ & _ & _ & -> & _).
  unfold noteScrollID. destruct (decide _) as [Hin|_]; [|reflexivity].
  symmetry. apply subseteq_union_1_L. now apply singleton_subseteq_l.
Qed.

(** What a call that completes has received and noted. *)
Lemma completed_driver fuel :
  (forall t response t',
     parseResult fuel t response = (Done, t') ->
     (IsError response = false /\
      exists r, decode_result (Body response) = Some r) /\
     exists es,
       requests t' = requests t ++ es /\ Forall good_scroll es /\
       sIDs t' = sIDs t ∪ list_to_set (scroll_ids es)) /\
  (forall t r t',
     pageLoop fuel t r = (Done, t') ->
     exists es,
       requests t' = requests t ++ es /\ Forall good_scroll es /\
       sIDs t' = sIDs t ∪ list_to_set (scroll_ids es)) /\
  (forall t id t',
     scroll fuel t id = (Done, t') ->
     exists f es,
       requests t' = requests t ++ EvScroll id f :: es /\
       good_fetch f /\ Forall good_scroll es /\
       sIDs t' = sIDs t ∪ list_to_set (scroll_ids es)).
Proof.
  induction fuel as [|fuel (IHp & IHl & IHs)].
  { repeat split; intros; simpl in *; discriminate. }
  split; [|split].
  - intros t response t' H. simpl in H.
    destruct (IsError response) eqn:Herr;
      [destruct (Body response); discriminate|].
    destruct (decode_result (Body response)) as [r|] eqn:D; [|discriminate].
    split; [eauto|].
    destruct (setTargets_fields r t) as (_ & _ & _ & _ & F5 & _).
    assert (F6 : sIDs (setTargets r t) = sIDs t).
    { unfold setTargets. simpl. now destruct (0 <? maxResult t). }
    destruct (_ && _).
    + destruct (pageLoop fuel (setTargets r t) r) as [o t1] eqn:L.
      destruct o; try discriminate. injection H as <-.
      apply IHl in L as (es & L1 & L2 & L3).
      destruct (flushRest_setup t1) as (_ & _ & _ & _ & S5 & _ & S7).
      exists es. rewrite S5, S7, L1, L3, F5, F6. auto.
    + injection H as <-. exists [].
      rewrite app_nil_r, F5, F6. repeat split; [constructor|].
      change (list_to_set (scroll_ids [])) with (∅ : gset string).
      now rewrite union_empty_r_L.
  - intros t r t' H. rewrite pageLoop_S in H.
    destruct (_ =? _).
    { injection H as <-. exists []. rewrite app_nil_r.
      repeat split; [constructor|].
      change (list_to_set (scroll_ids [])) with (∅ : gset string).
      now rewrite union_empty_r_L. }
    fold (pass r t) in H.
    destruct (pass_setup r t) as (_ & _ & _ & P4).
    destruct (scroll fuel (pass r t) (ScrollID r)) as [o t3] eqn:S.
    destruct o; try discriminate.
    apply IHs in S as (f & es1 & S1 & S2 & S3 & S4).
    apply IHl in H as (es2 & H1 & H2 & H3).
    exists ((EvScroll (ScrollID r) f :: es1) ++ es2). split; [|split].
    + rewrite H1, S1, P4. now rewrite <- app_assoc.
    + apply Forall_app. split; [|assumption]. now constructor.
    + rewrite H3, S4, pass_sIDs, scroll_ids_app, list_to_set_app_L.
      rewrite scroll_ids_scroll, list_to_set_cons.
      rewrite (union_comm_L {[ScrollID r]} (sIDs t)).
      now rewrite !union_assoc_L.
  - intros t id t' H. simpl in H. unfold call_cluster in H.
    destruct (next_fetch (esClient t)) as [f c].
    destruct (res f) as [response|] eqn:Rf; [|discriminate].
    destruct (err f) eqn:Ef; [discriminate|].
    apply IHp in H as ((Hok & r & D) & es & H1 & H2 & H3).
    exists f, es. cbn [answered requests sIDs] in H1, H3.
    split; [rewrite H1; now rewrite <- app_assoc|].
    split; [exists response, r; auto|]. auto.
Qed.

(** X4. A run that completes received nothing but success responses that
    decode: its first request is the search, all the others are
    continuation requests, and none of them came back with a transport
    error, an error status or an undecodable body. *)
Theorem completed_run_had_good_responses fuel m w c t' :
  run fuel (newApp m w c) = (Done, t') ->
  exists f es,
    requests t' = EvSearch f :: es /\
    good_fetch f /\ Forall good_scroll es.
Proof.
  intros H. unfold run, search, call_cluster in H.
  destruct (next_fetch (esClient (newApp m w c))) as [f c1].
  destruct (res f) as [response|] eqn:Rf; [|discriminate].
  destruct (err f) eqn:Ef; [discriminate|].
  destruct (parseResult fuel _ response) as [o t1] eqn:P.
  destruct o; try discriminate. injection H as <-.
  apply (proj1 (completed_driver fuel)) in P
    as ((Hok & r & D) & es & H1 & H2 & _).
  exists f, es. split; [exact H1|].
  split; [exists response, r; auto | assumption].
Qed.

(** X5. When a run completes, the scroll ids recorded in [sIDs] are
    exactly the scroll ids its continuation requests carried. *)
Theorem recorded_ids_are_the_requested_ids fuel m w c t' :
  run fuel (newApp m w c) = (Done, t') ->
  sIDs t' = list_to_set (scroll_ids (requests t')).
Proof.
  intros H. unfold run, search, call_cluster in H.
  destruct (next_fetch (esClient (newApp m w c))) as [f c1].
  destruct (res f) as [response|]; [|discriminate].
  destruct (err f); [discriminate|].
  destruct (parseResult fuel _ response) as [o t1] eqn:P.
  destruct o; try discriminate. injection H as <-.
  apply (proj1 (completed_driver fuel)) in P as (_ & es & H1 & _ & H3).
  change (clearScroll t1) with t1.
  rewrite H1, H3. cbn [answered requests sIDs newApp app].
  change (scroll_ids (EvSearch f :: es)) with (scroll_ids es).
  now rewrite union_empty_l_L.
Qed.

(** ** The lines of the output *)

Lemma line_of_payload (v : hit source) : line_of v = payload v ++ [newline].
Proof. unfold line_of, payload. now destruct (Marshal (Source v)). Qed.

Lemma split_lines_from_line (l : bytes) : forall cur rest,
  Forall (fun b => b <> newline) l ->
  split_lines_from cur (l ++ newline :: rest) =
  (cur ++ l) :: split_lines_from [] rest.
Proof.
  induction l as [|b l IH]; intros cur rest Hl.
  - cbn [app split_lines_from]. now rewrite app_nil_r.
  - apply Forall_cons in Hl as [Hb Hl].
    cbn [app split_lines_from].
    destruct (Byte.eqb b newline) eqn:E.
    { apply Byte.byte_dec_bl in E. contradiction. }
    rewrite IH by assumption. now rewrite <- app_assoc.
Qed.

(** X6. One record, one line: when no record's encoding holds a newline
    byte, splitting what a flush writes at the newlines gives back the
    encodings of the records, one per record and in order (an empty line
    for a record that [json.Marshal] rejected). *)
Theorem flush_lines_are_the_records (hs : list (hit source)) :
  Forall (fun v => Forall (fun b => b <> newline) (payload v)) hs ->
  split_lines (encode hs) = map payload hs.
Proof.
  unfold split_lines, encode.
  induction 1 as [|v hs Hv _ IH]; [reflexivity|].
  cbn [flat_map map]. rewrite line_of_payload, <- app_assoc.
  cbn [app]. rewrite split_lines_from_line by assumption.
  now rewrite IH.
Qed.

End Completed.

(** * Start-up *)

Section StartUp.

Import Setup.

Local Open Scope string_scope.

Lemma Split_not_nil s sep : Split s sep <> [].
Proof.
  destruct s as [|c s]; cbn [Split]; [discriminate|].
  destruct (Ascii.eqb c sep); [discriminate|].
  destruct (Split s sep); discriminate.
Qed.

Lemma Join_cons_cons p p' ps sep :
  Join (p :: p' :: ps) sep = p ++ String sep (Join (p' :: ps) sep).
Proof. reflexivity. Qed.

(** [strings.Join] undoes [strings.Split]. *)
Lemma Join_Split s sep : Join (Split s sep) sep = s.
Proof.
  induction s as [|c s IH]; [reflexivity|].
  cbn [Split].
  destruct (Split s sep) as [|p ps] eqn:E; [now apply Split_not_nil in E|].
  destruct (Ascii.eqb_spec c sep) as [->|_].
  - rewrite Join_cons_cons, IH. reflexivity.
  - destruct ps as [|p' ps].
    + rewrite <- IH. reflexivity.
    + rewrite Join_cons_cons. rewrite Join_cons_cons in IH.
      rewrite <- IH. reflexivity.
Qed.

(** No piece of a split holds the separator. *)
Lemma Split_pieces s sep :
  Forall (fun p => Contains p sep = false) (Split s sep).
Proof.
  induction s as [|c s IH]; cbn [Split].
  - repeat constructor.
  - destruct (Ascii.eqb c sep) eqn:E.
    + constructor; [reflexivity | assumption].
    + destruct (Split s sep) as [|p ps]; [repeat constructor; simpl; now rewrite E|].
      apply Forall_cons in IH as [Hp Hps].
      constructor; [|assumption]. cbn [Contains]. now rewrite E, Hp.
Qed.

Lemma Split_free s sep : Contains s sep = false -> Split s sep = [s].
Proof.
  induction s as [|c s IH]; [reflexivity|].
  cbn [Contains Split]. intros H.
  apply orb_false_iff in H as [-> H]. now rewrite IH.
Qed.

Lemma Split_app_sep u s sep :
  Contains u sep = false ->
  Split (u ++ String sep s) sep = u :: Split s sep.
Proof.
  induction u as [|c u IH]; simpl.
  - intros _. now rewrite Ascii.eqb_refl.
  - intros H. apply orb_false_iff in H as [-> H]. now rewrite IH.
Qed.

Lemma Contains_app_sep u s sep : Contains (u ++ String sep s) sep = true.
Proof.
  induction u as [|c u IH]; simpl.
  - now rewrite Ascii.eqb_refl.
  - rewrite IH. apply orb_true_r.
Qed.

(** X7. [-a user:password]: a user name and a password without a colon
    are taken as they are. *)
Theorem parseAuth_takes_pair u p :
  Contains u colon = false -> Contains p colon = false ->
  parseAuth (u ++ String colon p) = (u, p).
Proof.
  intros Hu Hp. unfold parseAuth.
  rewrite Contains_app_sep, Split_app_sep, (Split_free p) by assumption.
  destruct u; reflexivity.
Qed.

(** X8. Whatever [-a] holds, the credentials are either both empty or the
    two sides of its only colon; so a value with no colon or with more
    than one (a password that holds a colon) gives no credentials. *)
Theorem parseAuth_sound auth u p :
  parseAuth auth = (u, p) ->
  (u = "" /\ p = "") \/
  (auth = u ++ String colon p /\
   Contains u colon = false /\ Contains p colon = false).
Proof.
  unfold parseAuth. intros H.
  destruct (negb (String.eqb auth "") && Contains auth colon);
    [|injection H as <- <-; now left].
  pose proof (Join_Split auth colon) as HJ.
  pose proof (Split_pieces auth colon) as HP.
  destruct (Split auth colon) as [|u' [|p' [|x l]]];
    try (injection H as <- <-; now left).
  injection H as <- <-. right.
  apply Forall_cons in HP as [Hu HP]. apply Forall_cons in HP as [Hp _].
  auto.
Qed.

Lemma indexLoop_spec arr : forall acc,
  indexLoop acc arr =
  if decide ("_all" ∈ arr) then ["_all"]
  else (acc ++ filter (fun v => v <> "") arr)%list.
Proof.
  induction arr as [|v arr IH]; intros acc; cbn [indexLoop].
  - rewrite decide_False by apply not_elem_of_nil. now rewrite app_nil_r.
  - destruct (String.eqb_spec v "") as [->|Hv].
    + rewrite IH. rewrite filter_cons_False by (intros H; now apply H).
      destruct (decide ("_all" ∈ arr)) as [Hin|Hin].
      * rewrite decide_True by (now apply list_elem_of_further). reflexivity.
      * rewrite decide_False; [reflexivity|].
        intros [H|H]%elem_of_cons; [discriminate | contradiction].
    + rewrite filter_cons_True by assumption.
      destruct (String.eqb_spec v "_all") as [->|Hall].
      * rewrite decide_True by apply list_elem_of_here. reflexivity.
      * rewrite IH.
        destruct (decide ("_all" ∈ arr)) as [Hin|Hin].
        -- rewrite decide_True by (now apply list_elem_of_further).
           reflexivity.
        -- rewrite decide_False; [now rewrite <- app_assoc|].
           intros [H|H]%elem_of_cons; [congruence | contradiction].
Qed.

(** X9. [-i]: a non-empty value names the indices between its commas,
    the empty pieces left out and the order kept; if one of the pieces is
    [_all], [_all] alone is searched. *)
Theorem parseIndex_spec (optsIndex : list string) indexPrefix :
  indexPrefix <> "" ->
  parseIndex optsIndex indexPrefix =
  if decide ("_all" ∈ Split indexPrefix comma) then ["_all"]
  else filter (fun v => v <> "") (Split indexPrefix comma).
Proof.
  intros H. unfold parseIndex.
  destruct (String.eqb_spec indexPrefix "") as [E|_]; [contradiction|].
  cbn [negb]. apply indexLoop_spec.
Qed.

Lemma fieldsLoop_spec arr : forall acc,
  fieldsLoop acc arr = (acc ++ filter (fun v => v <> "") arr)%list.
Proof.
  induction arr as [|v arr IH]; intros acc; cbn [fieldsLoop].
  - now rewrite app_nil_r.
  - destruct (String.eqb_spec v "") as [->|Hv].
    + rewrite IH. now rewrite filter_cons_False by (intros H; now apply H).
    + rewrite IH, filter_cons_True by assumption. now rewrite <- app_assoc.
Qed.

(** X10. [-f]: a non-empty value selects the fields between its commas,
    the empty pieces left out and the order kept (none at all when it
    holds only commas, instead of the default [*]). *)
Theorem parseFields_spec (optsFields : list string) fields :
  fields <> "" ->
  parseFields optsFields fields =
  filter (fun v => v <> "") (Split fields comma).
Proof.
  intros H. unfold parseFields.
  destruct (String.eqb_spec fields "") as [E|_]; [contradiction|].
  cbn [negb]. apply fieldsLoop_spec.
Qed.

Lemma allIndex_spec names : forall index,
  allIndex names index =
  if decide ("_all" ∈ names) then ["_all"] else index.
Proof.
  induction names as [|v names IH]; intros index; cbn [allIndex].
  - now rewrite decide_False by apply not_elem_of_nil.
  - destruct (String.eqb_spec v "_all") as [->|Hv].
    + now rewrite decide_True by apply list_elem_of_here.
    + rewrite IH. destruct (decide ("_all" ∈ names)) as [Hin|Hin].
      * now rewrite decide_True by (now apply list_elem_of_further).
      * rewrite decide_False; [reflexivity|].
        intros [H|H]%elem_of_cons; [congruence | contradiction].
Qed.

Lemma parseIndex_names indexPrefix :
  Forall (fun v => v <> "") (parseIndex ["_all"] indexPrefix) /\
  (parseIndex ["_all"] indexPrefix = ["_all"] \/
   "_all" ∉ parseIndex ["_all"] indexPrefix).
Proof.
  destruct (String.eqb_spec indexPrefix "") as [->|Hne].
  { split; [repeat constructor; discriminate | now left]. }
  unfold parseIndex.
  destruct (String.eqb_spec indexPrefix "") as [E|_]; [contradiction|].
  cbn [negb]. rewrite indexLoop_spec.
  destruct (decide _) as [Hin|Hin].
  - split; [repeat constructor; discriminate | now left].
  - split.
    + apply Forall_forall. now intros v [Hv _]%list_elem_of_filter.
    + right. intros [_ H]%list_elem_of_filter. contradiction.
Qed.

End StartUp.

Section Pipeline.

Import Setup.

Local Open Scope string_scope.

Context {source : Type} `{!Marshaler source} {J : Type}
        (unmarshalMap : string -> option J) (encodeMap : J -> option bytes).

(** X11. The index list [main] builds from [-i] is already what
    [checkIndex] would make of it: [checkIndex]'s replacement by [_all]
    never changes it. *)
Theorem checkIndex_keeps_main_index indexPrefix :
  allIndex (parseIndex ["_all"] indexPrefix) (parseIndex ["_all"] indexPrefix)
  = parseIndex ["_all"] indexPrefix.
Proof.
  rewrite allIndex_spec.
  destruct (parseIndex_names indexPrefix) as [_ [E|Hnot]].
  - rewrite E. now rewrite decide_True by apply list_elem_of_here.
  - now rewrite decide_False.
Qed.

Lemma checkIndex_Done w o o' :
  checkIndex w o = (Done, o') ->
  index o <> [] /\
  index o' = allIndex (index o) (index o) /\
  fst (indicesExists w (index o')) = Some 200%Z /\
  snd (indicesExists w (index o')) = None.
Proof.
  unfold checkIndex. intros H.
  destruct (index o) as [|n ns] eqn:Ei; [discriminate|].
  cbn [index] in H.
  destruct (snd (indicesExists w (allIndex (n :: ns) (n :: ns)))) eqn:Es;
    [discriminate|].
  destruct (fst (indicesExists w (allIndex (n :: ns) (n :: ns)))) as [st|] eqn:Ef;
    [|discriminate].
  destruct (Z.eqb_spec st 200) as [->|_]; [|discriminate].
  injection H as <-. cbn [index]. auto.
Qed.

(** X12. [checkIndex] lets the run go on exactly when the index list is
    not empty and the cluster answers the existence check, asked for
    [_all] alone when [_all] is among the names and for the names as they
    are otherwise, with status 200 and no error. *)
Theorem checkIndex_passes_iff w o :
  fst (checkIndex w o) = Done <->
  index o <> [] /\
  indicesExists w (if decide ("_all" ∈ index o) then ["_all"] else index o)
    = (Some 200%Z, None).
Proof.
  rewrite <- allIndex_spec. unfold checkIndex.
  destruct (index o) as [|n ns] eqn:Ei.
  { split; [discriminate | intros [H _]; congruence]. }
  cbn [index].
  destruct (indicesExists w (allIndex (n :: ns) (n :: ns))) as [st e].
  cbn [fst snd].
  destruct e as [e|]; [split; [discriminate | intros [_ H]; discriminate]|].
  destruct st as [st|]; [|split; [discriminate | intros [_ H]; discriminate]].
  destruct (Z.eqb_spec st 200) as [->|Hst]; cbn [fst].
  - split; [intros _; split; [discriminate | reflexivity] | reflexivity].
  - split; [discriminate | intros [_ H]; congruence].
Qed.

(** X13. After [buildQuery] the search carries the query string or the
    query body, never both: with [-r] and a query that is a JSON object
    the body is its encoding and the query string is emptied; otherwise
    the body is empty and the query string is kept. *)
Theorem buildQuery_query_or_body o o' :
  buildQuery unmarshalMap encodeMap o = (Done, o') ->
  (q o' = "" /\
   exists query, rawQuery o = true /\ unmarshalMap (q o) = Some query /\
                 encodeMap query = Some (queryBody o')) \/
  (queryBody o' = [] /\ q o' = q o /\ (rawQuery o = false \/ q o = "")).
Proof.
  unfold buildQuery. intros H.
  destruct (rawQuery o) eqn:Er; cbn [andb] in H.
  - destruct (String.eqb_spec (q o) "") as [Eq|Eq]; cbn [negb] in H.
    + injection H as <-. right. cbn [queryBody q]. auto.
    + destruct (unmarshalMap (q o)) as [query|] eqn:Eu; [|discriminate].
      destruct (encodeMap query) as [body|] eqn:Ee; [|discriminate].
      injection H as <-. left. cbn [queryBody q]. eauto.
  - injection H as <-. right. cbn [queryBody q]. auto.
Qed.

Lemma buildQuery_keeps o o' out :
  buildQuery unmarshalMap encodeMap o = (out, o') ->
  index o' = index o /\ maxResult o' = maxResult o /\ output o' = output o /\
  (out = Done -> q o' = "" \/ queryBody o' = []).
Proof.
  unfold buildQuery. intros H.
  destruct (_ && _).
  - destruct (unmarshalMap (q o)) as [query|];
      [|injection H as <- <-; repeat split; discriminate].
    destruct (encodeMap query); injection H as <- <-; repeat split;
      try discriminate. now left.
  - injection H as <- <-. repeat split. now right.
Qed.

Lemma checkIndex_keeps w o o' out :
  checkIndex w o = (out, o') ->
  maxResult o' = maxResult o /\ output o' = output o.
Proof.
  unfold checkIndex. intros H.
  destruct (index o); [injection H as _ <-; auto|].
  destruct (snd _); [injection H as _ <-; auto|].
  destruct (fst _); [|injection H as _ <-; auto].
  destruct (_ =? _)%Z; injection H as _ <-; auto.
Qed.

(** X14. [-i] with nothing but commas names no index: once the output is
    open and the client is up, the program stops with [Error index], and
    the export itself is never started. *)
Theorem export_without_index fuel fl w (c : cluster source) :
  flag_i fl <> "" ->
  Forall (fun v => v = "") (Split (flag_i fl) comma) ->
  fst (if flag_p fl then (None, stdout w) else openFile w (flag_o fl)) = None ->
  getClient w = Done ->
  exists o,
    export unmarshalMap encodeMap fuel fl w c = (Fatal "Error index", Some o, None).
Proof.
  intros Hi Hall Hopen Hclient. unfold export, mainOptions.
  rewrite Hopen. destruct (parseAuth (flag_a fl)) as [u p].
  rewrite Hclient. unfold checkIndex. cbn [index]. unfold parseIndex.
  destruct (String.eqb_spec (flag_i fl) "") as [E|_]; [contradiction|].
  cbn [negb]. rewrite indexLoop_spec. cbn [app].
  rewrite decide_False.
  2:{ intros Hin. rewrite Forall_forall in Hall.
      specialize (Hall _ Hin). discriminate. }
  replace (filter (fun v => v <> "") (Split (flag_i fl) comma)) with (@nil string).
  2:{ clear -Hall. induction Hall as [|v l -> _ IH]; [reflexivity|].
      now rewrite filter_cons_False by (intros H; now apply H). }
  eexists. reflexivity.
Qed.

(** X15. The export itself starts only after the start-up went through:
    the client is up, the index list is not empty and holds no empty name,
    the cluster answered the existence check for it with status 200, the
    search carries the query string or the body but not both, and the
    export runs with the limit of [-m] on the output that was opened
    ([os.Stdout] with [-p], the file of [-o] otherwise). *)
Theorem export_starts_after_checks fuel fl w (c : cluster source) out o t :
  export unmarshalMap encodeMap fuel fl w c = (out, Some o, Some t) ->
  getClient w = Done /\
  index o <> [] /\ Forall (fun v => v <> "") (index o) /\
  fst (indicesExists w (index o)) = Some 200%Z /\
  snd (indicesExists w (index o)) = None /\
  (q o = "" \/ queryBody o = []) /\
  run fuel (newApp (flag_m fl) (output o) c) = (out, t) /\
  output o = snd (if flag_p fl then (None, stdout w)
                  else openFile w (flag_o fl)).
Proof.
  unfold export. intros H.
  destruct (mainOptions fl w) as [[] [o0|]] eqn:Em; try discriminate.
  destruct (getClient w) eqn:Eg; try discriminate.
  destruct (checkIndex w o0) as [[] o1] eqn:Ec; try discriminate.
  destruct (buildQuery unmarshalMap encodeMap o1) as [[] o2] eqn:Eb;
    try discriminate.
  destruct (run fuel _) as [out' t'] eqn:Er.
  injection H as <- <- <-.
  destruct (buildQuery_keeps _ _ _ Eb) as (B1 & B2 & B3 & B4).
  destruct (checkIndex_keeps _ _ _ _ Ec) as (C1 & C2).
  destruct (checkIndex_Done _ _ _ Ec) as (P1 & P2 & P3 & P4).
  assert (M : index o0 = parseIndex ["_all"] (flag_i fl) /\
              maxResult o0 = flag_m fl /\
              output o0 = snd (if flag_p fl then (None, stdout w)
                               else openFile w (flag_o fl))).
  { unfold mainOptions in Em.
    destruct (fst _); [discriminate|].
    destruct (parseAuth (flag_a fl)). injection Em as <-. auto. }
  destruct M as (M1 & M2 & M3).
  destruct (parseIndex_names (flag_i fl)) as [N1 N2].
  assert (P5 : index o1 = index o0).
  { rewrite P2, M1, allIndex_spec.
    destruct N2 as [E|Hnot].
    - rewrite E. now rewrite decide_True by apply list_elem_of_here.
    - now rewrite decide_False. }
  assert (M4 : output o2 = snd (if flag_p fl then (None, stdout w)
                                else openFile w (flag_o fl)))
    by congruence.
  rewrite B1, B2, C1, M2, <- B3 in *. rewrite P5 in *.
  repeat split; auto. now rewrite M1.
Qed.

End Pipeline.

(** * Further properties on concrete inputs *)

Lemma limit_never_exceeded_witness :
  totalLines (snd (run 20 (newApp 10 (newWriter []) three_docs))) =
    Z.of_nat (length (emitted (snd (run 20 (newApp 10 (newWriter []) three_docs))))) /\
  totalLines (snd (run 20 (newApp 10 (newWriter []) three_docs))) <= 10 /\
  Z.of_nat (length (concat (flushed
    (snd (run 20 (newApp 10 (newWriter []) three_docs)))))) <= 10.
Proof.
  apply (limit_never_exceeded 20 10 (newWriter []) three_docs). lia.
Defined.

Lemma completed_run_had_good_responses_witness :
  exists f es,
    requests (snd (run 20 (newApp 0 (newWriter []) two_pages)))
      = EvSearch f :: es /\
    good_fetch f /\ Forall good_scroll es.
Proof.
  apply (completed_run_had_good_responses 20 0 (newWriter []) two_pages
           (snd (run 20 (newApp 0 (newWriter []) two_pages)))).
  vm_compute. reflexivity.
Defined.

Lemma recorded_ids_are_the_requested_ids_witness :
  sIDs (snd (run 20 (newApp 0 (newWriter []) two_pages))) =
  list_to_set
    (scroll_ids (requests (snd (run 20 (newApp 0 (newWriter []) two_pages))))).
Proof.
  apply (recorded_ids_are_the_requested_ids 20 0 (newWriter []) two_pages
           (snd (run 20 (newApp 0 (newWriter []) two_pages)))).
  vm_compute. reflexivity.
Defined.

Lemma flush_lines_are_the_records_witness :
  split_lines (encode [hit_of 1; {| Source := Chan |}; hit_of 23]) =
  map payload [hit_of 1; {| Source := Chan |}; hit_of 23].
Proof.
  apply (flush_lines_are_the_records
           [hit_of 1; {| Source := Chan |}; hit_of 23]).
  vm_compute. repeat constructor; discriminate.
Defined.

Lemma parseAuth_takes_pair_witness :
  Setup.parseAuth ("user" ++ String Setup.colon "pass")%string
  = ("user", "pass")%string.
Proof.
  apply (parseAuth_takes_pair "user" "pass"); reflexivity.
Defined.

Lemma parseAuth_sound_witness :
  (("user" = "" /\ "pa" = "") \/
   ("user:pa" = "user" ++ String Setup.colon "pa" /\
    Setup.Contains "user" Setup.colon = false /\
    Setup.Contains "pa" Setup.colon = false))%string.
Proof.
  apply (parseAuth_sound "user:pa" "user" "pa"). reflexivity.
Defined.

Lemma parseIndex_spec_witness :
  Setup.parseIndex ["_all"%string] "logs,,app" =
  if decide ("_all"%string ∈ Setup.Split "logs,,app" Setup.comma)
  then ["_all"%string]
  else filter (fun v => v <> ""%string) (Setup.Split "logs,,app" Setup.comma).
Proof.
  apply (parseIndex_spec ["_all"%string] "logs,,app"). discriminate.
Defined.

Lemma parseFields_spec_witness :
  Setup.parseFields ["*"%string] "name,,age" =
  filter (fun v => v <> ""%string) (Setup.Split "name,,age" Setup.comma).
Proof.
  apply (parseFields_spec ["*"%string] "name,,age"). discriminate.
Defined.

Lemma buildQuery_query_or_body_witness :
  (Setup.q (snd (Setup.buildQuery toy_unmarshal toy_encode raw_options))
     = ""%string /\
   exists query,
     Setup.rawQuery raw_options = true /\
     toy_unmarshal (Setup.q raw_options) = Some query /\
     toy_encode query =
       Some (Setup.queryBody
               (snd (Setup.buildQuery toy_unmarshal toy_encode raw_options)))) \/
  (Setup.queryBody (snd (Setup.buildQuery toy_unmarshal toy_encode raw_options))
     = [] /\
   Setup.q (snd (Setup.buildQuery toy_unmarshal toy_encode raw_options))
     = Setup.q raw_options /\
   (Setup.rawQuery raw_options = false \/ Setup.q raw_options = ""%string)).
Proof.
  apply (buildQuery_query_or_body toy_unmarshal toy_encode raw_options).
  reflexivity.
Defined.

Lemma export_without_index_witness :
  exists o,
    Setup.export toy_unmarshal toy_encode 20 (flags_with ",," "") up_world
      two_pages
    = (Fatal "Error index", Some o, None).
Proof.
  apply (export_without_index toy_unmarshal toy_encode 20
           (flags_with ",," "") up_world two_pages).
  - discriminate.
  - vm_compute. repeat constructor.
  - reflexivity.
  - reflexivity.
Defined.

Lemma export_starts_after_checks_witness :
  Setup.getClient up_world = Done /\
  Setup.index logs_options <> [] /\
  Forall (fun v => v <> ""%string) (Setup.index logs_options) /\
  fst (Setup.indicesExists up_world (Setup.index logs_options)) = Some 200 /\
  snd (Setup.indicesExists up_world (Setup.index logs_options)) = None /\
  (Setup.q logs_options = ""%string \/ Setup.queryBody logs_options = []) /\
  run 20 (newApp (Setup.flag_m (flags_with "logs" ""))
            (Setup.output logs_options) two_pages)
  = (Done, snd (run 20 (newApp 0 (newWriter []) two_pages))) /\
  Setup.output logs_options =
    snd (if Setup.flag_p (flags_with "logs" "")
         then (None, Setup.stdout up_world)
         else Setup.openFile up_world (Setup.flag_o (flags_with "logs" ""))).
Proof.
  apply (export_starts_after_checks toy_unmarshal toy_encode 20
           (flags_with "logs" "") up_world two_pages Done logs_options
           (snd (run 20 (newApp 0 (newWriter []) two_pages)))).
  vm_compute. reflexivity.
Defined.

(** * Where the emitted records come from *)

Section Served.

Context {source : Type} `{!Marshaler source}.

Implicit Types (t : App source) (r : result source) (c : cluster source).

Variable P : hit source -> Prop.

(** A pass over a page takes a prefix of its records. *)
Lemma rangeHits_takes_prefix vs : forall t,
  exists k, emitted (rangeHits t vs) = emitted t ++ take k vs.
Proof.
  induction vs as [|v vs IH]; intros t.
  - exists 0%nat. cbn [rangeHits take]. now rewrite app_nil_r.
  - rewrite rangeHits_cons. destruct (limitHit _).
    + exists 1%nat. now rewrite flushAll_emitted, step_emitted.
    + destruct (IH (flushIfFull (appendHit v t))) as [k Hk].
      exists (S k). rewrite Hk, step_emitted.
      cbn [take]. now rewrite <- app_assoc.
Qed.

Lemma pass_serves r t :
  Forall P (emitted t) -> Forall P (Hits_ (Hits r)) ->
  Forall P (emitted (pass r t)).
Proof.
  intros Ht Hr. unfold pass.
  destruct (rangeHits_takes_prefix (Hits_ (Hits r))
              (noteScrollID (ScrollID r) t)) as [k ->].
  rewrite pass_emitted_base. apply Forall_app. split; [assumption|].
  now apply Forall_take.
Qed.

Lemma next_fetch_serves c :
  cluster_serves P c ->
  fetch_serves P (fst (next_fetch c)) /\ cluster_serves P (snd (next_fetch c)).
Proof.
  intros [Hs He]. unfold next_fetch.
  destruct (script c) as [|f rest] eqn:E; cbn [fst snd].
  - split; [assumption|]. split; [now rewrite E | assumption].
  - apply Forall_cons in Hs as [Hf Hrest]. split; [assumption|].
    split; assumption.
Qed.

Lemma served_driver fuel :
  (forall t response,
     Forall P (emitted t) -> cluster_serves P (esClient t) ->
     (forall r, decode_result (Body response) = Some r ->
                Forall P (Hits_ (Hits r))) ->
     Forall P (emitted (snd (parseResult fuel t response))) /\
     cluster_serves P (esClient (snd (parseResult fuel t response)))) /\
  (forall t r,
     Forall P (emitted t) -> cluster_serves P (esClient t) ->
     Forall P (Hits_ (Hits r)) ->
     Forall P (emitted (snd (pageLoop fuel t r))) /\
     cluster_serves P (esClient (snd (pageLoop fuel t r)))) /\
  (forall t id,
     Forall P (emitted t) -> cluster_serves P (esClient t) ->
     Forall P (emitted (snd (scroll fuel t id))) /\
     cluster_serves P (esClient (snd (scroll fuel t id)))).
Proof.
  induction fuel as [|fuel (IHp & IHl & IHs)].
  { split; [|split]; intros; split; assumption. }
  split; [|split].
  - intros t response Ht Hc Hr. simpl.
    destruct (IsError response);
      [destruct (Body response); split; assumption|].
    destruct (decode_result (Body response)) as [r|]; [|split; assumption].
    destruct (setTargets_fields r t) as (_ & _ & F3 & F4 & _ & F6 & _).
    assert (H1 : Forall P (emitted (setTargets r t)))
      by now rewrite (emitted_ext t (setTargets r t) F3 F4).
    assert (H2 : cluster_serves P (esClient (setTargets r t)))
      by now rewrite F6.
    destruct (_ && _); [|split; assumption].
    destruct (IHl _ r H1 H2 (Hr r eq_refl)) as [L1 L2].
    destruct (pageLoop fuel _ r) as [[] t1]; cbn [snd] in *;
      try (split; assumption).
    destruct (flushRest_setup t1) as (_ & _ & _ & _ & _ & S6 & _).
    now rewrite flushRest_emitted, S6.
  - intros t r Ht Hc Hr. rewrite pageLoop_S.
    destruct (_ =? _); [split; assumption|].
    fold (pass r t).
    destruct (pass_setup r t) as (_ & _ & P3 & _).
    assert (H2 : cluster_serves P (esClient (pass r t))) by now rewrite P3.
    destruct (IHs _ (ScrollID r) (pass_serves r t Ht Hr) H2) as [S1 S2].
    destruct (scroll fuel _ _) as [[] t1]; cbn [snd] in *;
      try (split; assumption).
    now apply IHl.
  - intros t id Ht Hc. simpl. unfold call_cluster.
    destruct (next_fetch_serves _ Hc) as [Hf Hc'].
    destruct (next_fetch (esClient t)) as [f c']. cbn [fst snd] in *.
    destruct (res f) as [response|] eqn:Rf; [|split; assumption].
    destruct (err f); [split; assumption|].
    apply IHp; try assumption.
    intros r Hr. exact (Hf response r Rf Hr).
Qed.

(** X16. The driver makes up no record: a property that every record the
    cluster may return has, every record taken by the run has, however
    the run ends. *)
Theorem emitted_records_were_served fuel m w c :
  cluster_serves P c ->
  Forall P (emitted (snd (run fuel (newApp m w c)))).
Proof.
  intros Hc. unfold run, search, call_cluster.
  destruct (next_fetch_serves _ Hc) as [Hf Hc'].
  cbn [newApp esClient].
  destruct (next_fetch c) as [f c']. cbn [fst snd] in *.
  destruct (res f) as [response|] eqn:Rf; [|constructor].
  destruct (err f); [constructor|].
  destruct (proj1 (served_driver fuel)
              (answered c' (EvSearch f) (newApp m w c)) response) as [H1 _];
    [constructor | assumption | intros r Hr; exact (Hf response r Rf Hr) |].
  destruct (parseResult fuel _ response) as [[] t']; assumption.
Qed.

End Served.

Lemma emitted_records_were_served_witness :
  Forall (fun v => Source v <> Chan)
    (emitted (snd (run 20 (newApp 10 (newWriter []) three_docs)))).
Proof.
  apply (emitted_records_were_served (fun v => Source v <> Chan) 20 10
           (newWriter []) three_docs).
  split.
  - repeat constructor. intros response r [= <-] [= <-].
    repeat constructor; discriminate.
  - intros response r [= <-] [= <-]. constructor.
Defined.

Lemma unlimited_run_complete_witness :
  exists t',
    run 7 (newApp 0 (newWriter [])
             {| script :=
                  map ok ({| ScrollID := "s1";
                             Hits := {| Total := 3;
                                        Hits_ := [hit_of 1; hit_of 2] |} |}
                          :: [ {| ScrollID := "s2";
                                  Hits := {| Total := 3;
                                             Hits_ := [hit_of 3] |} |} ])
                  ++ ok {| ScrollID := "s3";
                           Hits := {| Total := 3; Hits_ := [] |} |} :: [];
                exhausted := page "s3" 3 [] |}) = (Done, t') /\
    totalLines t' = 3 /\
    hitResult t' = [] /\
    concat (flushed t') =
      records ({| ScrollID := "s1";
                  Hits := {| Total := 3; Hits_ := [hit_of 1; hit_of 2] |} |}
               :: [ {| ScrollID := "s2";
                       Hits := {| Total := 3; Hits_ := [hit_of 3] |} |} ]) /\
    content (output t') =
      encode
        (records ({| ScrollID := "s1";
                     Hits := {| Total := 3; Hits_ := [hit_of 1; hit_of 2] |} |}
                  :: [ {| ScrollID := "s2";
                          Hits := {| Total := 3; Hits_ := [hit_of 3] |} |} ])) /\
    requests t' =
      walk ({| ScrollID := "s1";
               Hits := {| Total := 3; Hits_ := [hit_of 1; hit_of 2] |} |}
            :: [ {| ScrollID := "s2";
                    Hits := {| Total := 3; Hits_ := [hit_of 3] |} |} ])
        (ok {| ScrollID := "s3"; Hits := {| Total := 3; Hits_ := [] |} |}).
Proof.
  apply (unlimited_run_complete _ _ _ [] (page "s3" 3 []) 0 3 7).
  - lia.
  - repeat constructor; discriminate.
  - reflexivity.
  - lia.
  - reflexivity.
  - reflexivity.
  - simpl. lia.
Defined.

Lemma sink_is_written_once_per_flush_witness :
  map fst (attempts (output (snd (run 20 (newApp 0 (newWriter [None; None])
                                            two_pages))))) =
    map encode (flushed (snd (run 20 (newApp 0 (newWriter [None; None])
                                        two_pages)))) /\
  content (output (snd (run 20 (newApp 0 (newWriter [None; None])
                                  two_pages)))) =
    encode (concat (flushed (snd (run 20 (newApp 0 (newWriter [None; None])
                                            two_pages))))).
Proof.
  destruct (sink_is_written_once_per_flush 20 0 [None; None] two_pages)
    as [H1 H2].
  split; [exact H1 | apply H2; repeat constructor].
Defined.
